(** * rasa/utils/tensorflow/layers_utils.py

    A shallow embedding of the five tensor helpers of [layers_utils.py]
    ([random_indices], [batch_flatten], [pad_right], [get_candidate_values],
    [reduce_mean_equal]) together with the TensorFlow operations they call.

    Conventions of the embedding:
    - a tensor is its shape and its row-major buffer of elements;
    - a call that raises in Python returns [None];
    - the state of the random generator is passed explicitly;
    - a float32 value is represented by the rational it stands for, or by
      one of the non-finite values; rounding to 24 bits is not represented;
    - limits of the runtime (memory, the largest rank a kernel accepts) are
      not represented. *)

From Stdlib Require Import ZArith QArith Qreduction Lia.
From stdpp Require Import base tactics option list numbers.

Local Open Scope nat_scope.

(** ** Tensors *)

Record Tensor (A : Type) : Type := mkTensor { shape : list nat; data : list A }.
Arguments mkTensor {A} _ _.
Arguments shape {A} _.
Arguments data {A} _.

(** [TensorShape.num_elements]: the product of the axis sizes. *)
Definition num_elements (s : list nat) : nat := foldr Nat.mul 1 s.

(** [TensorShape.rank]. *)
Definition rank {A} (t : Tensor A) : nat := length (shape t).

(** The buffer of a tensor holds exactly as many elements as its shape says. *)
Definition well_formed {A} (t : Tensor A) : Prop :=
  length (data t) = num_elements (shape t).

(** [rows k n d]: the buffer [d] cut into [n] consecutive blocks of [k]
    elements, the row-major view of an axis of size [n] over items of
    [k] elements. *)
Definition rows {A} (k n : nat) (d : list A) : list (list A) :=
  reshape (replicate n k) d.

(** [x[i]]: the sub-tensor at position [i] of the leading axis.
    Indexing a scalar, or past the end of the axis, raises. *)
Definition index1 {A} (t : Tensor A) (i : nat) : option (Tensor A) :=
  match shape t with
  | [] => None
  | s :: ss =>
      if decide (i < s)
      then Some (mkTensor ss (take (num_elements ss)
                                   (drop (i * num_elements ss) (data t))))
      else None
  end.

(** [x[i0][i1]...[ik]]. *)
Fixpoint index {A} (t : Tensor A) (idx : list nat) : option (Tensor A) :=
  match idx with
  | [] => Some t
  | i :: idx' => index1 t i ≫= λ t', index t' idx'
  end.

(** The value held by a scalar tensor. *)
Definition item {A} (t : Tensor A) : option A :=
  match shape t with
  | [] => head (data t)
  | _ :: _ => None
  end.

(** The element of [t] at a full multi-index. *)
Definition at_index {A} (t : Tensor A) (idx : list nat) : option A :=
  index t idx ≫= item.

(** A multi-index lies inside a shape when each coordinate is below the
    size of its axis. *)
Definition in_bounds (idx s : list nat) : Prop := Forall2 lt idx s.

(** Row-major position of a multi-index in a shape. *)
Fixpoint ravel (s idx : list nat) : nat :=
  match s, idx with
  | _ :: s', i :: idx' => i * num_elements s' + ravel s' idx'
  | _, _ => 0
  end.

(** ** float32 values *)

Inductive float32 : Type :=
  | FNum (q : Q)
  | FInf (negative : bool)
  | FNaN.

Definition f32_of_nat (n : nat) : float32 := FNum (Qred (inject_Z (Z.of_nat n))).

Definition f32_zero : float32 := f32_of_nat 0.
Definition f32_one : float32 := f32_of_nat 1.

Definition q_is_zero (q : Q) : bool := Qeq_bool q 0.
Definition q_is_neg (q : Q) : bool := negb (Qle_bool 0 q).

(** [a + b]: infinities of opposite signs add up to NaN. *)
Definition f32_add (a b : float32) : float32 :=
  match a, b with
  | FNaN, _ | _, FNaN => FNaN
  | FInf s, FInf s' => if Bool.eqb s s' then FInf s else FNaN
  | FInf s, FNum _ | FNum _, FInf s => FInf s
  | FNum p, FNum q => FNum (Qred (p + q))
  end.

(** [a / b]: 0/0 and inf/inf are NaN, another number divided by zero is
    an infinity. *)
Definition f32_div (a b : float32) : float32 :=
  match a, b with
  | FNaN, _ | _, FNaN => FNaN
  | FInf _, FInf _ => FNaN
  | FInf s, FNum q => FInf (xorb s (q_is_neg q))
  | FNum _, FInf _ => f32_zero
  | FNum p, FNum q =>
      if q_is_zero q
      then (if q_is_zero p then FNaN else FInf (q_is_neg p))
      else FNum (Qred (p / q))
  end.

(** IEEE comparison [a == b]: a NaN equals nothing, itself included. *)
Definition f32_eqb (a b : float32) : bool :=
  match a, b with
  | FNum p, FNum q => Qeq_bool p q
  | FInf s, FInf s' => Bool.eqb s s'
  | _, _ => false
  end.

(** IEEE comparison [a <= b]. *)
Definition f32_leb (a b : float32) : bool :=
  match a, b with
  | FNaN, _ | _, FNaN => false
  | FNum p, FNum q => Qle_bool p q
  | FInf s, FInf s' => implb s' s
  | FInf s, FNum _ => s
  | FNum _, FInf s => negb s
  end.

(** ** Element types

    The element types on which [tf.math.equal] is defined: their
    comparison is symmetric (for floats too, where NaN differs from
    everything on both sides). The instances for integers, booleans and
    float32 follow the definitions. *)
Class DType (A : Type) : Type := {
  dt_equal : A → A → bool;
  dt_equal_sym : ∀ a b, dt_equal a b = dt_equal b a
}.

(** A tensor as Python sees it: the element type is part of the value. *)
Inductive AnyTensor : Type :=
  | Int32Tensor (t : Tensor Z)
  | Float32Tensor (t : Tensor float32).

(** ** The random generator

    The generator delivers a sequence of 32-bit words; [cursor] counts the
    words drawn so far. *)
Record Generator : Type := mkGenerator { words : nat → Z; cursor : nat }.

Definition draw (g : Generator) (k : nat) : list Z * Generator :=
  ((λ i, words g (cursor g + i) `mod` 2 ^ 32)%Z <$> seq 0 k,
   mkGenerator (words g) (cursor g + k)).

(** A Python tuple of integers used as a shape: every entry must be
    non-negative. *)
Definition as_shape (dims : list Z) : option (list nat) :=
  if forallb (λ d, 0 <=? d)%Z dims then Some (Z.to_nat <$> dims) else None.

(** ** TensorFlow operations *)
Module tf.

(** [tf.zeros(shape)], of the default element type float32. *)
Definition zeros (dims : list Z) : option (Tensor float32) :=
  s ← as_shape dims; Some (mkTensor s (replicate (num_elements s) f32_zero)).

(** [tf.zeros_like(x)] for an integer tensor. *)
Definition zeros_like (x : Tensor Z) : Tensor Z :=
  mkTensor (shape x) (replicate (length (data x)) 0%Z).

Module random.
(** [tf.random.uniform(shape, maxval=maxval, dtype=tf.int32)]: [minval]
    is 0, the call needs [minval < maxval], and each element is
    [minval + word mod (maxval - minval)] for a fresh word. [maxval] is
    the value of an int32 tensor; what the conversion of a larger number
    to int32 does is not represented. *)
Definition uniform (g : Generator) (dims : list Z) (maxval : Z)
  : option (Tensor Z * Generator) :=
  s ← as_shape dims;
  if decide (0 < maxval)%Z
  then let '(ws, g') := draw g (num_elements s) in
       Some (mkTensor s ((λ w, w `mod` maxval)%Z <$> ws), g')
  else None.
End random.

(** The size -1 of a requested shape stands for the size to infer. *)
Definition unknown (z : Z) : bool := (z =? -1)%Z.

(** The sizes of a shape that are not 0, and whether a shape has a size 0. *)
Definition nonzero_sizes (s : list nat) : list nat :=
  List.filter (λ n, negb (n =? 0)) s.

Definition has_zero_size (s : list nat) : bool := existsb (λ n, n =? 0) s.

(** The shape [tf.reshape] gives a tensor of shape [input] for the
    requested [sizes], as the kernel of TensorFlow 2 computes it. At most
    one size is -1 and is then inferred: the product of the other sizes
    leaves the sizes 0 out; when a requested size is 0 the number of
    elements of the input leaves its sizes 0 out as well; the inferred
    size is the quotient of the two, which must be exact unless a size 0
    of the input was left out. In every case the resulting shape must have
    as many elements as the input. *)
Definition reshape_shape (input : list nat) (sizes : list Z) : option (list nat) :=
  if forallb (λ z, -1 <=? z)%Z sizes then
    match length (List.filter unknown sizes) with
    | 0 =>
        let s := Z.to_nat <$> sizes in
        if decide (num_elements s = num_elements input) then Some s else None
    | 1 =>
        let known := Z.to_nat <$> List.filter (λ z, negb (unknown z)) sizes in
        let sizes_has_zero_dim := has_zero_size known in
        let product := num_elements (nonzero_sizes known) in
        let input_num_elements :=
          num_elements (if sizes_has_zero_dim then nonzero_sizes input else input) in
        let input_has_zero_dim := sizes_has_zero_dim && has_zero_size input in
        let missing := input_num_elements `div` product in
        if input_has_zero_dim || (product * missing =? input_num_elements) then
          let s := (λ z, if unknown z then missing else Z.to_nat z) <$> sizes in
          if decide (num_elements s = num_elements input) then Some s else None
        else None
    | _ => None
    end
  else None.

(** [tf.reshape(x, sizes)]: same buffer, new shape. *)
Definition reshape {A} (x : Tensor A) (sizes : list Z) : option (Tensor A) :=
  s ← reshape_shape (shape x) sizes;
  Some (mkTensor s (data x)).

(** [tf.shape(x)]: the shape as a 1-D integer tensor. *)
Definition shape_of {A} (x : Tensor A) : Tensor Z :=
  mkTensor [rank x] (Z.of_nat <$> shape x).

(** [tf.convert_to_tensor(s)] for a fully defined [TensorShape]. *)
Definition convert_to_tensor (s : list nat) : Tensor Z :=
  mkTensor [length s] (Z.of_nat <$> s).

(** [a - b] for two 1-D integer tensors, with broadcasting: the lengths
    agree, or one of them is 1. *)
Definition subtract (a b : list Z) : option (list Z) :=
  if decide (length a = length b) then Some (zip_with Z.sub a b)
  else match a, b with
       | [u], _ => Some ((λ v, u - v)%Z <$> b)
       | _, [v] => Some ((λ u, u - v)%Z <$> a)
       | _, _ => None
       end.

(** [tf.expand_dims(x, axis)]: an axis of size 1 is inserted at [axis],
    counted from the end when negative. *)
Definition expand_dims {A} (x : Tensor A) (axis : Z) : option (Tensor A) :=
  let r := Z.of_nat (rank x) in
  if decide (- (r + 1) ≤ axis ≤ r)%Z then
    let k := Z.to_nat (if decide (axis < 0)%Z then axis + r + 1 else axis)%Z in
    Some (mkTensor (take k (shape x) ++ 1 :: drop k (shape x)) (data x))
  else None.

(** [tf.concat([a, b], -1)]: the rows of [a] and [b] along the last axis
    are joined pairwise; the other axes must agree. *)
Definition concat_last {A} (a b : Tensor A) : option (Tensor A) :=
  ka ← list.last (shape a);
  kb ← list.last (shape b);
  let lead := removelast (shape a) in
  if decide (removelast (shape b) = lead) then
    let n := num_elements lead in
    Some (mkTensor (lead ++ [ka + kb])
                   (mjoin (zip_with app (rows ka n (data a)) (rows kb n (data b)))))
  else None.

(** The shape after padding: each axis grows by its two paddings. *)
Definition padded_shape (s : list nat) (p : list (nat * nat)) : list nat :=
  zip_with (λ n ba, ba.1 + n + ba.2) s p.

(** The buffer after padding with the constant [v], axis by axis. *)
Fixpoint pad_data {A} (v : A) (s : list nat) (p : list (nat * nat))
    (d : list A) : list A :=
  match s, p with
  | n :: s', (before, after) :: p' =>
      let inner := num_elements (padded_shape s' p') in
      replicate (before * inner) v
        ++ mjoin (pad_data v s' p' <$> rows (num_elements s') n d)
        ++ replicate (after * inner) v
  | _, _ => d
  end.

(** A row [[before, after]] of a paddings tensor; a negative entry is
    an error. *)
Definition padding_row (row : list Z) : option (nat * nat) :=
  match row with
  | [b; a] => if decide (0 ≤ b ∧ 0 ≤ a)%Z
              then Some (Z.to_nat b, Z.to_nat a) else None
  | _ => None
  end.

(** The rows of a paddings tensor, which must have shape [(r, 2)]. *)
Definition padding_pairs (paddings : Tensor Z) (r : nat)
  : option (list (nat * nat)) :=
  if decide (shape paddings = [r; 2])
  then mapM padding_row (rows 2 r (data paddings))
  else None.

(** [tf.pad(x, paddings, "CONSTANT", constant_values=v)]. *)
Definition pad {A} (x : Tensor A) (paddings : Tensor Z) (v : A)
  : option (Tensor A) :=
  p ← padding_pairs paddings (rank x);
  Some (mkTensor (padded_shape (shape x) p) (pad_data v (shape x) p (data x))).

(** The buffer after repeating each axis [m] times. *)
Fixpoint tile_data {A} (s m : list nat) (d : list A) : list A :=
  match s, m with
  | n :: s', k :: m' =>
      mjoin (replicate k (mjoin (tile_data s' m' <$> rows (num_elements s') n d)))
  | _, _ => d
  end.

(** [tf.tile(x, multiples)]: one non-negative multiple per axis. *)
Definition tile {A} (x : Tensor A) (multiples : list Z) : option (Tensor A) :=
  m ← as_shape multiples;
  if decide (length m = rank x)
  then Some (mkTensor (zip_with Nat.mul (shape x) m) (tile_data (shape x) m (data x)))
  else None.

(** Row [z] of a pool of [n] rows of [k] elements; an index outside
    [0, n) is an error. *)
Definition take_row {A} (k n : nat) (pool : list A) (z : Z) : option (list A) :=
  if decide (0 ≤ z < Z.of_nat n)%Z
  then Some (take k (drop (Z.to_nat z * k) pool))
  else None.

(** [tf.gather(params, indices, batch_dims=1)]: for every batch [b],
    [out[b, i..., :] = params[b, indices[b, i...], :]]. *)
Definition gather {A} (params : Tensor A) (indices : Tensor Z)
  : option (Tensor A) :=
  match shape params, shape indices with
  | b :: n :: inner, b' :: outer =>
      if decide (b = b') then
        let k := num_elements inner in
        blocks ← mapM (λ pi, mjoin <$> mapM (take_row k n pi.1) pi.2)
                      (zip (rows (n * k) b (data params))
                           (rows (num_elements outer) b (data indices)));
        Some (mkTensor (b :: outer ++ inner) (mjoin blocks))
      else None
  | _, _ => None
  end.

(** Broadcasting of two shapes, aligned at their last axes: two sizes
    are compatible when they are equal or one of them is 1. *)
Fixpoint broadcast_rev (a b : list nat) : option (list nat) :=
  match a, b with
  | [], s | s, [] => Some s
  | n :: a', m :: b' =>
      s ← broadcast_rev a' b';
      if decide (n = m) then Some (n :: s)
      else if decide (n = 1) then Some (m :: s)
      else if decide (m = 1) then Some (n :: s)
      else None
  end.

Definition broadcast_shapes (a b : list nat) : option (list nat) :=
  reverse <$> broadcast_rev (reverse a) (reverse b).

(** The buffer of a tensor of shape [s] seen at the shape [t] of the
    same rank: an axis of size 1 is repeated. *)
Fixpoint broadcast_data {A} (s t : list nat) (d : list A) : list A :=
  match s, t with
  | n :: s', m :: t' =>
      let blocks := mjoin (broadcast_data s' t' <$> rows (num_elements s') n d) in
      if decide (n = m) then blocks else mjoin (replicate m blocks)
  | _, _ => d
  end.

Definition broadcast_to {A} (x : Tensor A) (t : list nat) : list A :=
  broadcast_data (replicate (length t - rank x) 1 ++ shape x) t (data x).

Module math.
(** [tf.math.equal(x, y)]: element-wise comparison of the two
    tensors broadcast to their common shape. *)
Definition equal {A} `{DType A} (x y : Tensor A) : option (Tensor bool) :=
  s ← broadcast_shapes (shape x) (shape y);
  Some (mkTensor s (zip_with dt_equal (broadcast_to x s) (broadcast_to y s))).
End math.

(** [tf.cast(x, tf.float32)] for a boolean tensor. *)
Definition cast (x : Tensor bool) : Tensor float32 :=
  mkTensor (shape x) ((λ b : bool, if b then f32_one else f32_zero) <$> data x).

(** [tf.reduce_mean(x)] over all axes: the sum of the elements divided
    by their number, a scalar. *)
Definition reduce_mean (x : Tensor float32) : Tensor float32 :=
  mkTensor [] [f32_div (foldr f32_add f32_zero (data x))
                       (f32_of_nat (num_elements (shape x)))].

End tf.

(** ** layers_utils.py *)

(** [random_indices(batch_size, n, n_max)]. *)
Definition random_indices (g : Generator) (batch_size n n_max : Z)
  : option (AnyTensor * Generator) :=
  if decide (n_max > 0)%Z
  then '(t, g') ← tf.random.uniform g [batch_size; n] n_max;
       Some (Int32Tensor t, g')
  else t ← tf.zeros [batch_size; n]; Some (Float32Tensor t, g).

(** [batch_flatten(x)]: [x.shape[-1]] raises on a scalar. *)
Definition batch_flatten {A} (x : Tensor A) : option (Tensor A) :=
  d ← list.last (shape x);
  tf.reshape x [(-1)%Z; Z.of_nat d].

(** [pad_right(x, target_shape, value)]. *)
Definition pad_right {A} (x : Tensor A) (target_shape : list nat) (value : A)
  : option (Tensor A) :=
  let current_shape := tf.shape_of x in
  diff ← tf.subtract (data (tf.convert_to_tensor target_shape)) (data current_shape);
  right_padding ← tf.expand_dims (mkTensor [length diff] diff) (-1);
  padding ← tf.concat_last (tf.zeros_like right_padding) right_padding;
  tf.pad x padding value.

(** [get_candidate_values(x, candidate_ids)]. *)
Definition get_candidate_values {A} (x : Tensor A) (candidate_ids : Tensor Z)
  : option (Tensor A) :=
  flat ← batch_flatten x;
  pool ← tf.expand_dims flat 0;
  b ← head (shape candidate_ids);
  tiled_x ← tf.tile pool [Z.of_nat b; 1%Z; 1%Z];
  tf.gather tiled_x candidate_ids.

(** [reduce_mean_equal(x, y)]. *)
Definition reduce_mean_equal {A} `{DType A} (x y : Tensor A)
  : option (Tensor float32) :=
  eq ← tf.math.equal x y;
  Some (tf.reduce_mean (tf.cast eq)).

(** ** Notions used to state the properties *)

(** Whether [x] and [y] hold equal elements at position [i] of their buffers. *)
Definition equal_at {A} `{DType A} (x y : Tensor A) (i : nat) : bool :=
  match data x !! i, data y !! i with
  | Some a, Some b => dt_equal a b
  | _, _ => false
  end.

(** The number of positions at which [x] and [y] hold equal elements. *)
Definition count_equal {A} `{DType A} (x y : Tensor A) : nat :=
  length (filter (λ i, equal_at x y i = true) (seq 0 (num_elements (shape x)))).

(** A scalar tensor. *)
Definition scalar {A} (v : A) : Tensor A := mkTensor [] [v].

(** The paddings [pad_right] hands to [tf.pad] when the target shape has
    the rank of [x]: nothing before, the missing part after. *)
Definition right_pads (target s : list nat) : list (nat * nat) :=
  zip_with (λ t n, (0, t - n)) target s.

(** Row [z] of a pool of rows of [k] elements. *)
Definition select_row {A} (k : nat) (pool : list A) (z : Z) : list A :=
  take k (drop (Z.to_nat z * k) pool).

(** The number of elements of one example of a batch: the product of
    the sizes of all axes but the first. *)
Definition per_example_size {A} (x : Tensor A) : nat :=
  num_elements (tail (shape x)).


(** [0.0 <= v <= 1.0]. *)
Definition in_unit_interval (v : float32) : bool :=
  f32_leb f32_zero v && f32_leb v f32_one.

(** The candidate ids [[0], [1], ..., [b-1]]: every example is its own
    single candidate. *)
Definition own_candidates (b : nat) : Tensor Z :=
  mkTensor [b; 1] (Z.of_nat <$> seq 0 b).

(** * Properties *)

(** ** Element types and decidable bounds *)

#[export] Instance int_dtype : DType Z :=
  {| dt_equal := Z.eqb; dt_equal_sym := Z.eqb_sym |}.

Lemma bool_eqb_sym (a b : bool) : Bool.eqb a b = Bool.eqb b a.
Proof. by destruct a, b. Qed.

#[export] Instance bool_dtype : DType bool :=
  {| dt_equal := Bool.eqb; dt_equal_sym := bool_eqb_sym |}.

Lemma f32_eqb_sym (a b : float32) : f32_eqb a b = f32_eqb b a.
Proof.
  destruct a as [p|s|], b as [q|s'|]; simpl; try reflexivity.
  - apply eq_true_iff_eq. rewrite !Qeq_bool_iff. split; intros H; symmetry; exact H.
  - apply bool_eqb_sym.
Qed.

#[export] Instance float32_dtype : DType float32 :=
  {| dt_equal := f32_eqb; dt_equal_sym := f32_eqb_sym |}.

#[export] Instance in_bounds_dec idx s : Decision (in_bounds idx s).
Proof. unfold in_bounds. apply _. Defined.

(** ** Shapes *)

Lemma num_elements_cons n s : num_elements (n :: s) = n * num_elements s.
Proof. reflexivity. Qed.

Lemma num_elements_app s t : num_elements (s ++ t) = num_elements s * num_elements t.
Proof. induction s as [|n s IH]; simpl; [lia|]. rewrite IH. lia. Qed.

Lemma as_shape_nonneg dims :
  Forall (λ d, 0 ≤ d)%Z dims → as_shape dims = Some (Z.to_nat <$> dims).
Proof.
  intros Hd. unfold as_shape.
  replace (forallb _ dims) with true; [done|].
  symmetry. induction Hd as [|d dims Hd _ IH]; simpl; [done|].
  rewrite IH, andb_true_r. by apply Z.leb_le.
Qed.

(** What [tf.reshape(x, (-1, d))] infers. *)
Lemma reshape_shape_last (input : list nat) (d : nat) :
  tf.reshape_shape input [(-1)%Z; Z.of_nat d]
  = if decide (d = 0)
    then (if decide (num_elements input = 0)
          then Some [num_elements (tf.nonzero_sizes input); 0] else None)
    else (if decide (d * (num_elements input `div` d) = num_elements input)
          then Some [num_elements input `div` d; d] else None).
Proof.
  unfold tf.reshape_shape.
  assert (Hu : tf.unknown (Z.of_nat d) = false).
  { unfold tf.unknown. apply Z.eqb_neq. lia. }
  assert (Hb : (-1 <=? Z.of_nat d)%Z = true) by (apply Z.leb_le; lia).
  cbn [forallb]. rewrite Hb. change (-1 <=? -1)%Z with true. cbn [andb].
  cbn [List.filter]. change (tf.unknown (-1)) with true. rewrite Hu.
  cbn [negb length fmap list_fmap]. change (tf.unknown (-1)) with true.
  rewrite Hu, Nat2Z.id.
  cbn [tf.has_zero_size tf.nonzero_sizes existsb List.filter].
  destruct d as [|d]; cbn [Nat.eqb negb orb andb num_elements foldr].
  - rewrite Nat.div_1_r, Nat.mul_1_l, Nat.eqb_refl, orb_true_r, Nat.mul_0_l, Nat.mul_0_r.
    fold (num_elements (tf.nonzero_sizes input)).
    destruct (decide (0 = 0)) as [_|]; [|done].
    by destruct (decide (0 = num_elements input)), (decide (num_elements input = 0)).
  - rewrite !Nat.mul_1_r. fold (num_elements input).
    destruct (decide (S d = 0)) as [|_]; [done|].
    destruct (decide (S d * (num_elements input `div` S d) = num_elements input))
      as [Hdiv|Hdiv].
    + rewrite (proj2 (Nat.eqb_eq _ _) Hdiv). by rewrite decide_True by lia.
    + by rewrite (proj2 (Nat.eqb_neq _ _) Hdiv).
Qed.

Lemma reshape_shape_flatten (input : list nat) (p d : nat) :
  0 < d → num_elements input = p * d →
  tf.reshape_shape input [(-1)%Z; Z.of_nat d] = Some [p; d].
Proof.
  intros Hd Hn. rewrite reshape_shape_last, decide_False by lia.
  rewrite Hn, Nat.div_mul by lia. by rewrite decide_True by lia.
Qed.

Lemma nonzero_sizes_app s t :
  tf.nonzero_sizes (s ++ t) = tf.nonzero_sizes s ++ tf.nonzero_sizes t.
Proof. apply List.filter_app. Qed.

Lemma num_elements_nonzero_sizes s : 0 < num_elements (tf.nonzero_sizes s).
Proof.
  induction s as [|n s IH]; [cbn; lia|].
  cbn [tf.nonzero_sizes List.filter]. destruct n as [|n]; [exact IH|].
  cbn [Nat.eqb negb]. rewrite num_elements_cons. fold (tf.nonzero_sizes s). lia.
Qed.

(** Without a size 0 nothing is left out. *)
Lemma nonzero_sizes_id s : Forall (λ n, 0 < n) s → tf.nonzero_sizes s = s.
Proof.
  induction 1 as [|n s Hn _ IH]; [done|].
  cbn [tf.nonzero_sizes List.filter]. destruct n as [|n]; [lia|].
  cbn [Nat.eqb negb]. f_equal. exact IH.
Qed.

(** ** random_indices *)

Lemma draw_length g k : length (draw g k).1 = k.
Proof. unfold draw. simpl. by rewrite length_fmap, length_seq. Qed.

(** C4: for positive [batch_size], [n] and [n_max], [random_indices]
    returns an integer tensor of shape [(batch_size, n)] all of whose
    elements lie in [[0, n_max)], whatever words the generator delivers. *)
Theorem random_indices_in_range (g : Generator) (batch_size n n_max : Z) :
  (0 < batch_size)%Z → (0 < n)%Z → (0 < n_max)%Z →
  ∃ t g', random_indices g batch_size n n_max = Some (Int32Tensor t, g')
          ∧ shape t = [Z.to_nat batch_size; Z.to_nat n]
          ∧ well_formed t
          ∧ Forall (λ v, 0 ≤ v < n_max)%Z (data t).
Proof.
  intros Hb Hn Hmax. unfold random_indices, tf.random.uniform.
  destruct (decide (n_max > 0)%Z) as [_|]; [|lia].
  rewrite as_shape_nonneg by (repeat apply Forall_cons_2; [lia..|apply Forall_nil_2]).
  cbn [mbind option_bind fmap list_fmap].
  destruct (decide (0 < n_max)%Z) as [_|]; [|lia].
  destruct (draw g _) as [ws g'] eqn:Hdraw. cbn.
  eexists _, _. split; [reflexivity|]. split; [reflexivity|]. split.
  - unfold well_formed. cbn [data shape]. rewrite length_fmap.
    pose proof (draw_length g (num_elements [Z.to_nat batch_size; Z.to_nat n])) as Hl.
    rewrite Hdraw in Hl. exact Hl.
  - cbn [data]. apply Forall_fmap, Forall_forall. intros w _. cbn.
    apply Z.mod_pos_bound. lia.
Qed.

(** The values of the spec's example: [n_max = 5], [batch_size = 100],
    [n = 3]. *)
Lemma random_indices_in_range_witness :
  ∃ t g', random_indices (mkGenerator (λ i, Z.of_nat (7 * i + 3)) 0) 100 3 5
            = Some (Int32Tensor t, g')
          ∧ shape t = [100; 3]
          ∧ well_formed t
          ∧ Forall (λ v, 0 ≤ v < 5)%Z (data t).
Proof.
  apply (random_indices_in_range (mkGenerator (λ i, Z.of_nat (7 * i + 3)) 0) 100 3 5);
    lia.
Defined.

(** C5: for positive [batch_size] and [n] and [n_max <= 0],
    [random_indices] raises nothing and returns a float32 tensor of shape
    [(batch_size, n)] filled with zero; the generator is left untouched. *)
Theorem random_indices_degenerate (g : Generator) (batch_size n n_max : Z) :
  (0 < batch_size)%Z → (0 < n)%Z → (n_max ≤ 0)%Z →
  random_indices g batch_size n n_max
  = Some (Float32Tensor
            (mkTensor [Z.to_nat batch_size; Z.to_nat n]
                      (replicate (Z.to_nat batch_size * Z.to_nat n) (FNum 0))), g).
Proof.
  intros Hb Hn Hmax. unfold random_indices, tf.zeros.
  destruct (decide (n_max > 0)%Z) as [|_]; [lia|].
  rewrite as_shape_nonneg by (repeat apply Forall_cons_2; [lia..|apply Forall_nil_2]).
  cbn. by rewrite Nat.mul_1_r.
Qed.

Lemma random_indices_degenerate_witness :
  random_indices (mkGenerator (λ i, Z.of_nat i) 0) 2 3 0
  = Some (Float32Tensor (mkTensor [2; 3] (replicate 6 (FNum 0))),
          mkGenerator (λ i, Z.of_nat i) 0).
Proof.
  apply (random_indices_degenerate (mkGenerator (λ i, Z.of_nat i) 0) 2 3 0); lia.
Defined.

(** ** Row-major blocks *)

Section rows.
Context {A : Type}.
Implicit Types d r : list A.
Implicit Types ls : list (list A).

Lemma rows_S k n d : rows k (S n) d = take k d :: rows k n (drop k d).
Proof. reflexivity. Qed.

Lemma length_rows k n d : length (rows k n d) = n.
Proof. unfold rows. by rewrite length_reshape, length_replicate. Qed.

Lemma rows_lookup k n d i :
  i < n → rows k n d !! i = Some (take k (drop (i * k) d)).
Proof.
  revert i d. induction n as [|n IH]; intros i d Hi; [lia|].
  rewrite rows_S. destruct i as [|i]; simpl; [done|].
  rewrite IH by lia. by rewrite drop_drop.
Qed.

Lemma Forall_length_rows k n d :
  n * k ≤ length d → Forall (λ r, length r = k) (rows k n d).
Proof.
  revert d. induction n as [|n IH]; intros d Hd; [constructor|].
  rewrite rows_S. constructor.
  - rewrite length_take. lia.
  - apply IH. rewrite length_drop. lia.
Qed.

Lemma Forall_fmap_rows {B} (f : list A → B) (P : B → Prop) k n d :
  (∀ r, length r = k → P (f r)) → n * k ≤ length d →
  Forall P (f <$> rows k n d).
Proof.
  intros Hf Hd. apply Forall_fmap.
  pose proof (Forall_length_rows k n d Hd) as Hall.
  revert Hall. generalize (rows k n d). intros ls Hall.
  induction Hall as [|r ls Hr _ IH]; constructor; [by apply Hf|done].
Qed.

Lemma mjoin_rows k n d : length d = n * k → mjoin (rows k n d) = d.
Proof.
  intros Hd. unfold rows. apply join_reshape.
  by rewrite sum_list_replicate.
Qed.

Lemma mjoin_fmap_rows (f : list A → list A) k n d :
  (∀ r, length r = k → f r = r) → length d = n * k →
  mjoin (f <$> rows k n d) = d.
Proof.
  intros Hf Hd. rewrite <-(mjoin_rows k n d Hd) at 2. f_equal.
  pose proof (Forall_length_rows k n d ltac:(lia)) as Hall.
  revert Hall. generalize (rows k n d). intros ls Hall.
  induction Hall as [|r ls Hr _ IH]; csimpl; [done|].
  by rewrite Hf, IH.
Qed.

Lemma length_mjoin_same k ls :
  Forall (λ r, length r = k) ls → length (mjoin ls) = length ls * k.
Proof.
  induction 1 as [|r ls Hr _ IH]; simpl; [done|].
  rewrite length_app, IH, Hr. lia.
Qed.

(** The [i]-th block of a buffer made of blocks of [k] elements. *)
Lemma take_drop_mjoin k ls i r rest :
  Forall (λ r, length r = k) ls → ls !! i = Some r →
  take k (drop (i * k) (mjoin ls ++ rest)) = r.
Proof.
  intros Hall. revert i. induction Hall as [|r0 ls Hr0 Hall IH]; intros i Hi; [done|].
  destruct i as [|i]; simpl in *.
  - injection Hi as ->. rewrite <-app_assoc. by apply take_app_length'.
  - rewrite <-app_assoc, drop_app_add' by done. by apply IH.
Qed.
End rows.

(** ** float32 sums of zeros and ones *)

Lemma f32_add_zero c : f32_add f32_zero (f32_of_nat c) = f32_of_nat c.
Proof.
  unfold f32_zero, f32_of_nat, f32_add. f_equal. apply Qred_complete.
  rewrite !Qred_correct. cbn [Z.of_nat]. apply Qplus_0_l.
Qed.

Lemma f32_add_one c : f32_add f32_one (f32_of_nat c) = f32_of_nat (S c).
Proof.
  unfold f32_one, f32_of_nat, f32_add. f_equal. apply Qred_complete.
  rewrite !Qred_correct, Nat2Z.inj_succ.
  unfold Qeq, Qplus, inject_Z. cbn [Qnum Qden Z.of_nat]. lia.
Qed.

(** ** tf.math.equal on tensors of one shape *)

Lemma broadcast_rev_diag s : tf.broadcast_rev s s = Some s.
Proof.
  induction s as [|n s IH]; simpl; [done|].
  rewrite IH. simpl. by destruct (decide (n = n)).
Qed.

Lemma broadcast_rev_sym a b : tf.broadcast_rev a b = tf.broadcast_rev b a.
Proof.
  revert b. induction a as [|n a IH]; intros [|m b]; simpl; try done.
  rewrite IH. destruct (tf.broadcast_rev b a) as [s|]; simpl; [|done].
  repeat case_decide; subst; try done; lia.
Qed.

Lemma broadcast_data_diag {A} s (d : list A) :
  length d = num_elements s → tf.broadcast_data s s d = d.
Proof.
  revert d. induction s as [|n s IH]; intros d Hd; simpl; [done|].
  destruct (decide (n = n)) as [_|]; [|done].
  apply mjoin_fmap_rows; [|done].
  intros r Hr. by apply IH.
Qed.

Lemma zip_with_equal_sym {A} `{DType A} (l k : list A) :
  zip_with dt_equal l k = zip_with dt_equal k l.
Proof.
  revert k. induction l as [|a l IH]; intros [|b k]; simpl; try done.
  by rewrite dt_equal_sym, IH.
Qed.

Lemma equal_same_shape {A} `{DType A} (x y : Tensor A) :
  shape x = shape y → well_formed x → well_formed y →
  tf.math.equal x y
  = Some (mkTensor (shape x) (zip_with dt_equal (data x) (data y))).
Proof.
  intros Hs Hx Hy. unfold tf.math.equal, tf.broadcast_shapes.
  rewrite <-Hs, broadcast_rev_diag. cbn. rewrite reverse_involutive.
  unfold tf.broadcast_to, rank. rewrite <-Hs, Nat.sub_diag. cbn.
  rewrite !broadcast_data_diag; [done|by rewrite Hs|done].
Qed.

(** ** reduce_mean_equal *)

Section count.
Context {A : Type} `{DType A}.

Lemma length_filter_S (P : nat → Prop) `{∀ i, Decision (P i)} (l : list nat) :
  length (filter P (S <$> l)) = length (filter (λ i, P (S i)) l).
Proof.
  induction l as [|i l IH]; [done|]. csimpl.
  rewrite !filter_cons. destruct (decide (P (S i))); simpl; by rewrite IH.
Qed.

(** The float32 sum of the 0/1 images of the comparisons is the number
    of positions that compare equal. *)
Lemma sum_cast_equal (l k : list A) :
  length l = length k →
  foldr f32_add f32_zero
        ((λ b : bool, if b then f32_one else f32_zero) <$> zip_with dt_equal l k)
  = f32_of_nat (length (filter
      (λ i, match l !! i, k !! i with
            | Some a, Some b => dt_equal a b
            | _, _ => false
            end = true) (seq 0 (length l)))).
Proof.
  revert k. induction l as [|a l IH]; intros [|b k] Hlen; try done.
  injection Hlen as Hlen. cbn [zip_with fmap list_fmap foldr length].
  rewrite IH by done. rewrite <-cons_seq, <-fmap_S_seq, filter_cons.
  cbn [lookup list_lookup].
  destruct (dt_equal a b); case_decide; try done;
    cbn [length]; rewrite length_filter_S; cbn [lookup list_lookup].
  - apply f32_add_one.
  - apply f32_add_zero.
Qed.

Lemma reduce_mean_equal_same_shape (x y : Tensor A) :
  shape x = shape y → well_formed x → well_formed y →
  reduce_mean_equal x y
  = Some (scalar (f32_div (f32_of_nat (count_equal x y))
                          (f32_of_nat (num_elements (shape x))))).
Proof.
  intros Hs Hx Hy. unfold reduce_mean_equal.
  rewrite equal_same_shape by done. cbn.
  unfold tf.reduce_mean, tf.cast, scalar. cbn [data shape].
  rewrite sum_cast_equal by (rewrite Hx, Hy; by rewrite Hs).
  unfold count_equal, equal_at. by rewrite Hx.
Qed.
End count.

Lemma count_equal_le {A} `{DType A} (x y : Tensor A) :
  count_equal x y ≤ num_elements (shape x).
Proof.
  unfold count_equal. etrans; [apply length_filter|]. by rewrite length_seq.
Qed.

Lemma f32_ratio_in_unit_interval (c n : nat) :
  c ≤ n → 0 < n →
  in_unit_interval (f32_div (f32_of_nat c) (f32_of_nat n)) = true.
Proof.
  intros Hc Hn. unfold f32_div, f32_of_nat, q_is_zero.
  destruct (Qeq_bool (Qred (inject_Z (Z.of_nat n))) 0) eqn:Hz.
  { apply Qeq_bool_eq in Hz. rewrite Qred_correct in Hz.
    unfold Qeq, inject_Z in Hz. cbn [Qnum Qden] in Hz. lia. }
  unfold in_unit_interval, f32_zero, f32_one, f32_of_nat, f32_leb.
  apply andb_true_iff. rewrite !Qle_bool_iff, !Qred_correct.
  assert (Hpos : (0 < inject_Z (Z.of_nat n))%Q).
  { unfold Qlt, inject_Z. cbn [Qnum Qden]. lia. }
  split.
  - apply Qle_shift_div_l; [done|].
    unfold Qle, Qmult, inject_Z. cbn [Qnum Qden Z.of_nat]. lia.
  - apply Qle_shift_div_r; [done|].
    unfold Qle, Qmult, inject_Z. cbn [Qnum Qden Z.of_nat]. lia.
Qed.

(** C6: for tensors [x], [y] of one shape, [reduce_mean_equal] returns a
    scalar float32: the number of positions at which the elements of [x]
    and [y] compare equal, divided by the number of positions. *)
Theorem reduce_mean_equal_fraction {A} `{DType A} (x y : Tensor A) :
  shape x = shape y → well_formed x → well_formed y →
  reduce_mean_equal x y
  = Some (scalar (f32_div (f32_of_nat (count_equal x y))
                          (f32_of_nat (num_elements (shape x))))).
Proof. apply reduce_mean_equal_same_shape. Qed.

(** The spec's example: [reduce_mean_equal([1,2,3,4], [1,0,3,0]) = 0.5]. *)
Lemma reduce_mean_equal_fraction_witness :
  reduce_mean_equal (mkTensor [4] [1; 2; 3; 4]%Z) (mkTensor [4] [1; 0; 3; 0]%Z)
  = Some (scalar (FNum (1 # 2))).
Proof.
  exact (eq_trans
           (reduce_mean_equal_fraction
              (mkTensor [4] [1; 2; 3; 4]%Z) (mkTensor [4] [1; 0; 3; 0]%Z)
              eq_refl eq_refl eq_refl)
           eq_refl).
Defined.

(** C7, as stated, fails on the empty tensor: the mean of no element is
    0/0, a NaN, which lies in no interval. *)
Lemma reduce_mean_equal_empty_not_in_unit_interval :
  shape (mkTensor [0] ([] : list Z)) = shape (mkTensor [0] ([] : list Z))
  ∧ well_formed (mkTensor [0] ([] : list Z))
  ∧ ¬ ∃ v, reduce_mean_equal (mkTensor [0] []) (mkTensor [0] ([] : list Z))
           = Some (scalar v)
           ∧ in_unit_interval v = true.
Proof.
  split; [done|]. split; [done|].
  intros (v & Hv & Hin). vm_compute in Hv. injection Hv as <-. discriminate Hin.
Qed.

(** C7, amended: for tensors [x], [y] of one shape with at least one
    element, the scalar returned by [reduce_mean_equal] lies in
    [[0.0, 1.0]]; for tensors without elements it is NaN. *)
Theorem reduce_mean_equal_in_unit_interval {A} `{DType A} (x y : Tensor A) :
  shape x = shape y → well_formed x → well_formed y →
  ∃ v, reduce_mean_equal x y = Some (scalar v)
       ∧ if decide (num_elements (shape x) = 0)
         then v = FNaN
         else in_unit_interval v = true.
Proof.
  intros Hs Hx Hy. rewrite reduce_mean_equal_same_shape by done.
  eexists. split; [reflexivity|].
  pose proof (count_equal_le x y) as Hc. case_decide as Hn.
  - rewrite Hn in *. by replace (count_equal x y) with 0 by lia.
  - apply f32_ratio_in_unit_interval; [done|lia].
Qed.

Lemma reduce_mean_equal_in_unit_interval_witness :
  ∃ v, reduce_mean_equal (mkTensor [3] [1; 2; 3]%Z) (mkTensor [3] [1; 0; 3]%Z)
       = Some (scalar v)
       ∧ in_unit_interval v = true.
Proof.
  apply (reduce_mean_equal_in_unit_interval
           (mkTensor [3] [1; 2; 3]%Z) (mkTensor [3] [1; 0; 3]%Z));
    reflexivity.
Defined.

(** C10: [reduce_mean_equal] is commutative, for tensors of one shape and
    for any two tensors that broadcast against each other. *)
Theorem reduce_mean_equal_comm {A} `{DType A} (x y : Tensor A) :
  reduce_mean_equal x y = reduce_mean_equal y x.
Proof.
  unfold reduce_mean_equal, tf.math.equal, tf.broadcast_shapes.
  rewrite (broadcast_rev_sym (reverse (shape x))).
  destruct (tf.broadcast_rev _ _) as [s|]; [|done]. cbn.
  by rewrite zip_with_equal_sym.
Qed.

(** ** batch_flatten *)

(** C8, as stated, fails on a tensor with one axis: the vector [[1,2,3]]
    is reshaped to [[[1,2,3]]]. *)
Lemma batch_flatten_vector_returns :
  rank (mkTensor [3] [1; 2; 3]%Z) < 2
  ∧ well_formed (mkTensor [3] [1; 2; 3]%Z)
  ∧ batch_flatten (mkTensor [3] [1; 2; 3]%Z) ≠ None.
Proof. split; [cbn; lia|]. split; [reflexivity|]. vm_compute. discriminate. Qed.

(** C8, amended: on a non-empty tensor with fewer than 2 axes,
    [batch_flatten] fails when [x] is a scalar, and returns the elements of
    [x] with shape [(1, n)] when [x] is a vector of [n] elements. *)
Theorem batch_flatten_low_rank {A} (x : Tensor A) :
  rank x < 2 → 0 < num_elements (shape x) →
  batch_flatten x = match shape x with
                    | [] => None
                    | n :: _ => Some (mkTensor [1; n] (data x))
                    end.
Proof.
  unfold rank, batch_flatten, tf.reshape.
  destruct (shape x) as [|n [|m s]]; cbn [length]; intros Hr Hn; [done| |lia].
  cbn [list.last mbind option_bind]. cbn [num_elements foldr] in Hn.
  rewrite (reshape_shape_flatten [n] 1 n) by (cbn; lia). done.
Qed.

Lemma batch_flatten_low_rank_witness :
  batch_flatten (mkTensor [3] [1; 2; 3]%Z) = Some (mkTensor [1; 3] [1; 2; 3]%Z).
Proof.
  apply (batch_flatten_low_rank (mkTensor [3] [1; 2; 3]%Z)); cbn; lia.
Defined.

Example batch_flatten_scalar : batch_flatten (scalar 7%Z) = None.
Proof. reflexivity. Qed.

(** ** Indexing *)

Section indexing.
Context {A : Type}.
Implicit Types d : list A.

Lemma index1_cons n s d i :
  i < n →
  index1 (mkTensor (n :: s) d) i
  = Some (mkTensor s (take (num_elements s) (drop (i * num_elements s) d))).
Proof. intros Hi. unfold index1. cbn [shape data]. by rewrite decide_True. Qed.

Lemma at_index_cons n s d i idx :
  i < n →
  at_index (mkTensor (n :: s) d) (i :: idx)
  = at_index (mkTensor s (take (num_elements s) (drop (i * num_elements s) d))) idx.
Proof. intros Hi. unfold at_index. cbn [index]. by rewrite index1_cons. Qed.

Lemma length_block k n d i :
  length d = n * k → i < n → length (take k (drop (i * k) d)) = k.
Proof. intros Hd Hi. rewrite length_take, length_drop. nia. Qed.

Lemma in_bounds_cons i idx n s : in_bounds (i :: idx) (n :: s) ↔ i < n ∧ in_bounds idx s.
Proof.
  unfold in_bounds. split.
  - inversion 1; subst. by split.
  - intros [Hi Hin]. by constructor.
Qed.

(** A well-formed tensor holds an element at every multi-index inside
    its shape. *)
Lemma at_index_is_Some (x : Tensor A) idx :
  well_formed x → in_bounds idx (shape x) → is_Some (at_index x idx).
Proof.
  destruct x as [s d]. unfold well_formed. cbn [shape data].
  intros Hd Hin. revert d Hd.
  induction Hin as [|i n idx s Hi Hin IH]; intros d Hd.
  - destruct d as [|a d]; [done|]. by exists a.
  - rewrite at_index_cons by done. apply IH.
    by apply (length_block _ n).
Qed.

(** Every element of a constant tensor is the constant. *)
Lemma at_index_replicate s (v : A) idx :
  in_bounds idx s →
  at_index (mkTensor s (replicate (num_elements s) v)) idx = Some v.
Proof.
  induction 1 as [|i n idx s Hi Hin IH]; [done|].
  rewrite at_index_cons by done. rewrite num_elements_cons.
  rewrite drop_replicate, take_replicate.
  replace (_ `min` _) with (num_elements s) by nia.
  exact IH.
Qed.
End indexing.

(** ** tf.pad *)

Section pad.
Context {A : Type} (v : A).
Implicit Types d : list A.

Lemma padded_shape_right_pads s target :
  Forall2 le s target → tf.padded_shape s (right_pads target s) = target.
Proof.
  induction 1 as [|n t s target Hn _ IH]; [done|].
  unfold tf.padded_shape, right_pads in *. cbn. rewrite IH. f_equal. lia.
Qed.

Lemma length_pad_data s p d :
  length p = length s → length d = num_elements s →
  length (tf.pad_data v s p d) = num_elements (tf.padded_shape s p).
Proof.
  revert p d. induction s as [|n s IH]; intros [|[b a] p] d Hp Hd; try done.
  injection Hp as Hp. cbn [tf.pad_data]. rewrite num_elements_cons in Hd.
  rewrite !length_app, !length_replicate.
  rewrite (length_mjoin_same (num_elements (tf.padded_shape s p))).
  - rewrite length_fmap, length_rows.
    unfold tf.padded_shape. cbn [zip_with fst snd].
    rewrite num_elements_cons. nia.
  - apply Forall_fmap_rows; [|lia]. intros r Hr. by apply IH.
Qed.

(** Padding by nothing changes nothing. *)
Lemma pad_data_same s d :
  length d = num_elements s → tf.pad_data v s (right_pads s s) d = d.
Proof.
  revert d. induction s as [|n s IH]; intros d Hd; [done|].
  unfold right_pads. cbn [zip_with tf.pad_data]. fold (right_pads s s).
  rewrite Nat.sub_diag. cbn [Nat.mul replicate app]. rewrite app_nil_r.
  apply mjoin_fmap_rows; [|done].
  intros r Hr. by apply IH.
Qed.

(** The sub-tensors of a right-padded tensor along its leading axis:
    the padded sub-tensors of the source, then constant ones. *)
Lemma pad_data_block n t s target d i :
  Forall2 le s target → n ≤ t → length d = n * num_elements s → i < t →
  take (num_elements target)
       (drop (i * num_elements target)
             (tf.pad_data v (n :: s) (right_pads (t :: target) (n :: s)) d))
  = if decide (i < n)
    then tf.pad_data v s (right_pads target s)
                     (take (num_elements s) (drop (i * num_elements s) d))
    else replicate (num_elements target) v.
Proof.
  intros Hle Hn Hd Hi. unfold right_pads. cbn [zip_with tf.pad_data].
  fold (right_pads target s). rewrite padded_shape_right_pads by done.
  cbn [Nat.mul replicate app].
  set (k := num_elements s). set (m := num_elements target).
  set (blocks := tf.pad_data v s (right_pads target s) <$> rows k n d).
  assert (Hblocks : Forall (λ r, length r = m) blocks).
  { apply Forall_fmap_rows; [|lia]. intros r Hr.
    rewrite length_pad_data, padded_shape_right_pads; [done|done| |done].
    apply Forall2_length in Hle. unfold right_pads.
    by rewrite length_zip_with_l_eq. }
  case_decide as Hin.
  - apply take_drop_mjoin; [done|].
    unfold blocks. by rewrite list_lookup_fmap, rows_lookup.
  - rewrite drop_app_ge; rewrite (length_mjoin_same m) by done;
      unfold blocks; rewrite length_fmap, length_rows; [|nia].
    rewrite drop_replicate, take_replicate. f_equal. nia.
Qed.

(** The element of a right-padded tensor at a multi-index inside the
    target shape. *)
Lemma at_index_pad_data s target d idx :
  Forall2 le s target → length d = num_elements s → in_bounds idx target →
  at_index (mkTensor target (tf.pad_data v s (right_pads target s) d)) idx
  = if decide (in_bounds idx s) then at_index (mkTensor s d) idx else Some v.
Proof.
  intros Hle. revert d idx.
  induction Hle as [|n t s target Hn Hle IH]; intros d idx Hd Hin.
  - inversion Hin; subst. by rewrite decide_True by constructor.
  - inversion Hin as [|i t' idx' target' Hi Hin']; subst.
    rewrite at_index_cons by done. rewrite num_elements_cons in Hd.
    rewrite pad_data_block by done.
    destruct (decide (i < n)) as [Hlt|Hge].
    + rewrite IH by (by apply (length_block _ n) || done).
      rewrite at_index_cons by done.
      destruct (decide (in_bounds idx' s)) as [Hs|Hs].
      * by rewrite decide_True by (by apply in_bounds_cons).
      * rewrite decide_False; [done|]. rewrite in_bounds_cons. tauto.
    + rewrite at_index_replicate by done.
      rewrite decide_False; [done|]. rewrite in_bounds_cons. tauto.
Qed.
End pad.

(** ** pad_right *)

Lemma expand_dims_last_vector {A} n (d : list A) :
  tf.expand_dims (mkTensor [n] d) (-1) = Some (mkTensor [n; 1] d).
Proof.
  unfold tf.expand_dims, rank. cbn [shape length data].
  rewrite decide_True by lia. by rewrite decide_True by lia.
Qed.

Lemma interleave_rows {A} (z : A) (l : list A) :
  mjoin (zip_with app (rows 1 (length l) (replicate (length l) z))
                      (rows 1 (length l) l))
  = l ≫= λ a, [z; a].
Proof.
  induction l as [|a l IH]; [done|].
  cbn [length replicate]. rewrite !rows_S. cbn [take drop zip_with].
  rewrite !drop_0. csimpl. by rewrite IH.
Qed.

Lemma rows_pairs {A} (z : A) (l : list A) :
  rows 2 (length l) (l ≫= λ a, [z; a]) = (λ a, [z; a]) <$> l.
Proof.
  induction l as [|a l IH]; [done|].
  cbn [length]. rewrite rows_S. csimpl. by rewrite drop_0, IH.
Qed.

Lemma right_padding_rows s target :
  Forall2 le s target →
  mapM tf.padding_row
       ((λ a, [0%Z; a]) <$> zip_with Z.sub (Z.of_nat <$> target) (Z.of_nat <$> s))
  = Some (right_pads target s).
Proof.
  induction 1 as [|n t s target Hn _ IH]; [done|].
  csimpl. rewrite decide_True by lia. cbn [mbind option_bind].
  replace (mapM _ _) with (Some (right_pads target s)) by (symmetry; exact IH).
  cbn. do 3 f_equal. lia.
Qed.

(** What [pad_right] computes when the target shape has the rank of [x]
    and is nowhere smaller. *)
Lemma pad_right_unfold {A} (x : Tensor A) target (value : A) :
  Forall2 le (shape x) target →
  pad_right x target value
  = Some (mkTensor target
            (tf.pad_data value (shape x) (right_pads target (shape x)) (data x))).
Proof.
  intros Hle. pose proof (Forall2_length Hle) as Hlen.
  unfold pad_right. cbn [tf.convert_to_tensor tf.shape_of data].
  unfold tf.subtract. rewrite decide_True by (by rewrite !length_fmap).
  cbn [mbind option_bind]. rewrite expand_dims_last_vector. cbn [mbind option_bind].
  set (diff := zip_with Z.sub _ _).
  assert (Hdiff : length diff = rank x).
  { unfold diff, rank. rewrite length_zip_with_l_eq; rewrite !length_fmap; done. }
  unfold tf.concat_last, tf.zeros_like. cbn [shape data list.last removelast app].
  cbn [mbind option_bind]. rewrite decide_True by done.
  cbn [mbind option_bind num_elements foldr]. rewrite Nat.mul_1_r.
  rewrite interleave_rows. unfold tf.pad, tf.padding_pairs. cbn [shape data].
  rewrite decide_True by (by rewrite Hdiff).
  rewrite <-Hdiff, rows_pairs. unfold diff. rewrite right_padding_rows by done.
  cbn [mbind option_bind]. by rewrite padded_shape_right_pads.
Qed.

Lemma shape_le_refl s : Forall2 le s s.
Proof. induction s; by constructor. Qed.

(** C9: [pad_right] with the shape of [x] as target returns [x]. *)
Theorem pad_right_same_shape {A} (x : Tensor A) (value : A) :
  well_formed x → pad_right x (shape x) value = Some x.
Proof.
  intros Hx. rewrite pad_right_unfold by apply shape_le_refl.
  rewrite pad_data_same by done. by destruct x.
Qed.

Lemma pad_right_same_shape_witness :
  pad_right (mkTensor [2; 2] [1; 2; 3; 4]%Z) [2; 2] 0%Z
  = Some (mkTensor [2; 2] [1; 2; 3; 4]%Z).
Proof. apply (pad_right_same_shape (mkTensor [2; 2] [1; 2; 3; 4]%Z)). reflexivity. Defined.

(** C3: for a target shape of the rank of [x] that is nowhere smaller than
    the shape of [x], [pad_right] returns a tensor of exactly the target
    shape; at every multi-index inside the shape of [x] it holds the
    element [x] holds there, and at every other multi-index inside the
    target shape it holds [value]. Indices are not shifted: padding comes
    after the data on every axis. *)
Theorem pad_right_spec {A} (x : Tensor A) (target_shape : list nat) (value : A) :
  well_formed x → Forall2 le (shape x) target_shape →
  ∃ out, pad_right x target_shape value = Some out
         ∧ shape out = target_shape
         ∧ well_formed out
         ∧ (∀ idx, in_bounds idx (shape x) →
              ∃ a, at_index x idx = Some a ∧ at_index out idx = Some a)
         ∧ (∀ idx, in_bounds idx target_shape → ¬ in_bounds idx (shape x) →
              at_index out idx = Some value).
Proof.
  intros Hx Hle. rewrite pad_right_unfold by done.
  eexists. split; [reflexivity|]. split; [reflexivity|].
  pose proof (Forall2_length Hle) as Hlen.
  split; [|split].
  - unfold well_formed. cbn [shape data].
    rewrite length_pad_data, padded_shape_right_pads; [done|done| |done].
    unfold right_pads. by rewrite length_zip_with_l_eq.
  - intros idx Hin.
    destruct (at_index_is_Some x idx Hx Hin) as [a Ha]. exists a. split; [done|].
    rewrite at_index_pad_data; [|done|done|].
    + rewrite decide_True by done. by destruct x.
    + unfold in_bounds in *. clear -Hin Hle. revert target_shape Hle.
      induction Hin as [|i n idx s Hi _ IH]; intros target Hle;
        inversion Hle; subst; constructor; [lia|by apply IH].
  - intros idx Hin Hout.
    rewrite at_index_pad_data by done. by rewrite decide_False.
Qed.

(** The spec's example: [[1,2],[3,4]] padded to shape [(3,4)] with 0. *)
Lemma pad_right_spec_witness :
  ∃ out, pad_right (mkTensor [2; 2] [1; 2; 3; 4]%Z) [3; 4] 0%Z = Some out
         ∧ shape out = [3; 4]
         ∧ well_formed out
         ∧ (∀ idx, in_bounds idx [2; 2] →
              ∃ a, at_index (mkTensor [2; 2] [1; 2; 3; 4]%Z) idx = Some a
                   ∧ at_index out idx = Some a)
         ∧ (∀ idx, in_bounds idx [3; 4] → ¬ in_bounds idx [2; 2] →
              at_index out idx = Some 0%Z).
Proof.
  apply (pad_right_spec (mkTensor [2; 2] [1; 2; 3; 4]%Z) [3; 4] 0%Z).
  - reflexivity.
  - repeat constructor.
Defined.

Example pad_right_example :
  pad_right (mkTensor [2; 2] [1; 2; 3; 4]%Z) [3; 4] 0%Z
  = Some (mkTensor [3; 4] [1; 2; 0; 0; 3; 4; 0; 0; 0; 0; 0; 0]%Z).
Proof. reflexivity. Qed.

(** ** batch_flatten on tensors with a last axis *)


Section flatten.
Context {A : Type}.
Implicit Types d : list A.

Lemma batch_flatten_unfold (x : Tensor A) lead k :
  shape x = lead ++ [k] → 0 < k →
  batch_flatten x = Some (mkTensor [num_elements lead; k] (data x)).
Proof.
  intros Hs Hk. unfold batch_flatten, tf.reshape. rewrite Hs, last_snoc.
  cbn [mbind option_bind].
  rewrite (reshape_shape_flatten _ (num_elements lead) k); [done|done|].
  rewrite num_elements_app. cbn. lia.
Qed.

(** With an empty last axis the leading sizes 0 are left out. *)
Lemma batch_flatten_unfold_empty (x : Tensor A) lead :
  shape x = lead ++ [0] →
  batch_flatten x = Some (mkTensor [num_elements (tf.nonzero_sizes lead); 0] (data x)).
Proof.
  intros Hs. unfold batch_flatten, tf.reshape. rewrite Hs, last_snoc.
  cbn [mbind option_bind]. change (Z.of_nat 0) with (Z.of_nat 0%nat).
  rewrite reshape_shape_last, decide_True by done.
  rewrite decide_True by (rewrite num_elements_app; cbn; lia).
  rewrite nonzero_sizes_app. cbn [tf.nonzero_sizes List.filter Nat.eqb negb].
  by rewrite app_nil_r.
Qed.


End flatten.







Example batch_flatten_empty_rows :
  batch_flatten (mkTensor [2; 3; 0] ([] : list Z)) = Some (mkTensor [6; 0] []).
Proof. reflexivity. Qed.

Example batch_flatten_empty_matrix :
  batch_flatten (mkTensor [0; 0] ([] : list Z)) = Some (mkTensor [1; 0] []).
Proof. reflexivity. Qed.

Example ravel_2_3 a b : ravel [2; 3] [a; b] = 3 * a + b.
Proof. cbn. lia. Qed.

(** ** get_candidate_values *)

Section gather.
Context {A : Type}.
Implicit Types d pool : list A.

Lemma expand_dims_front s d :
  tf.expand_dims (mkTensor s d) 0 = Some (mkTensor (1 :: s) d).
Proof.
  unfold tf.expand_dims, rank. cbn [shape data].
  rewrite decide_True by lia. by rewrite decide_False by lia.
Qed.

Lemma rows_mjoin k (ls : list (list A)) :
  Forall (λ r, length r = k) ls → rows k (length ls) (mjoin ls) = ls.
Proof.
  induction 1 as [|r ls Hr _ IH]; [done|].
  cbn [length mjoin list_join]. rewrite rows_S.
  rewrite take_app_length', drop_app_length' by done. f_equal. exact IH.
Qed.

(** Repeating every axis once changes nothing. *)
Lemma tile_data_ones s d :
  length d = num_elements s → tf.tile_data s (replicate (length s) 1) d = d.
Proof.
  revert d. induction s as [|n s IH]; intros d Hd; [done|].
  cbn [length replicate tf.tile_data mjoin list_join]. rewrite app_nil_r.
  apply mjoin_fmap_rows; [|done]. intros r Hr. by apply IH.
Qed.

(** Repeating a new leading axis [b] times lays [b] copies of the
    buffer one after the other. *)
Lemma tile_data_leading s b d :
  length d = num_elements s →
  tf.tile_data (1 :: s) (b :: replicate (length s) 1) d = mjoin (replicate b d).
Proof.
  intros Hd. cbn [tf.tile_data]. do 2 f_equal.
  apply mjoin_fmap_rows; [|lia]. intros r Hr. by apply tile_data_ones.
Qed.

Lemma mapM_take_row k n pool (ids : list Z) :
  Forall (λ z, 0 ≤ z < Z.of_nat n)%Z ids →
  mapM (tf.take_row k n pool) ids = Some (select_row k pool <$> ids).
Proof.
  intros Hids. apply mapM_Some. apply Forall2_fmap_r, Forall_Forall2_diag.
  revert Hids. apply Forall_impl. intros z Hz. cbn.
  unfold tf.take_row. by rewrite decide_True.
Qed.

Lemma mapM_gather_blocks k n pool (rs : list (list Z)) :
  Forall (Forall (λ z, 0 ≤ z < Z.of_nat n)%Z) rs →
  mapM (λ pi : list A * list Z, mjoin <$> mapM (tf.take_row k n pi.1) pi.2)
       (zip (replicate (length rs) pool) rs)
  = Some ((λ row, mjoin (select_row k pool <$> row)) <$> rs).
Proof.
  intros Hrs. apply mapM_Some. apply Forall2_fmap_r.
  induction Hrs as [|row rs Hrow _ IH]; [constructor|].
  cbn [length replicate zip zip_with]. constructor; [|exact IH].
  cbn. by rewrite mapM_take_row.
Qed.
End gather.

(** What [get_candidate_values] computes on a tensor with a non-empty
    last axis and indices into the rows of its flattened pool. *)
Lemma get_candidate_values_unfold {A} (x : Tensor A) (candidate_ids : Tensor Z)
    (lead : list nat) (k b n : nat) :
  well_formed x → shape x = lead ++ [k] → 0 < k →
  well_formed candidate_ids → shape candidate_ids = [b; n] →
  Forall (λ z, 0 ≤ z < Z.of_nat (num_elements lead))%Z (data candidate_ids) →
  get_candidate_values x candidate_ids
  = Some (mkTensor [b; n; k]
            (mjoin ((λ row, mjoin (select_row k (data x) <$> row))
                      <$> rows n b (data candidate_ids)))).
Proof.
  intros Hx Hs Hk Hc Hcs Hids.
  assert (Hd : length (data x) = num_elements lead * k).
  { rewrite Hx, Hs, num_elements_app. cbn. lia. }
  unfold get_candidate_values. rewrite (batch_flatten_unfold x lead k) by done.
  cbn [mbind option_bind]. rewrite expand_dims_front. rewrite Hcs.
  cbn [mbind option_bind head]. unfold tf.tile.
  rewrite as_shape_nonneg by (repeat apply Forall_cons_2; [lia..|apply Forall_nil_2]).
  cbn [mbind option_bind fmap list_fmap]. rewrite Nat2Z.id.
  rewrite decide_True by done. cbn [shape data].
  change [b; Z.to_nat 1; Z.to_nat 1]
    with (b :: replicate (length [num_elements lead; k]) 1).
  rewrite tile_data_leading by (cbn; lia).
  cbn [length replicate zip_with]. rewrite !Nat.mul_1_r, Nat.mul_1_l.
  cbn [mbind option_bind]. unfold tf.gather. cbn [shape data].
  rewrite Hcs, decide_True by done.
  cbn [num_elements foldr]. rewrite !Nat.mul_1_r.
  rewrite <-(length_replicate b (data x)) at 1.
  rewrite rows_mjoin by (by apply Forall_replicate).
  rewrite <-(length_rows n b (data candidate_ids)) at 1.
  rewrite mapM_gather_blocks by (by apply Forall_reshape).
  done.
Qed.

Lemma head_take_drop {A} (l : list A) j : head (take 1 (drop j l)) = l !! j.
Proof.
  rewrite head_lookup, lookup_take_lt by lia. rewrite lookup_drop. f_equal. lia.
Qed.

Lemma length_select_rows {A} k n (pool : list A) (row : list Z) :
  length pool = n * k → Forall (λ z, 0 ≤ z < Z.of_nat n)%Z row →
  Forall (λ r, length r = k) (select_row k pool <$> row).
Proof.
  intros Hp Hrow. apply Forall_fmap. revert Hrow. apply Forall_impl.
  intros z Hz. cbn. unfold select_row. apply (length_block _ n); [done|lia].
Qed.

(** The element of a matrix of indices. *)
Lemma at_index_matrix (ids : list Z) b n i j :
  i < b → j < n →
  at_index (mkTensor [b; n] ids) [i; j] = take n (drop (i * n) ids) !! j.
Proof.
  intros Hi Hj. rewrite !at_index_cons by done.
  cbn [num_elements foldr]. rewrite !Nat.mul_1_r.
  unfold at_index. cbn [index mbind option_bind item shape data].
  apply head_take_drop.
Qed.

(** C1, as stated, fails on a tensor with more than two axes: the pool
    is [batch_flatten x], whose rows have the length of the last axis of
    [x], not of all its non-batch axes together. *)
Lemma get_candidate_values_rank3_shape :
  well_formed (mkTensor [2; 2; 2] [0; 1; 2; 3; 4; 5; 6; 7]%Z)
  ∧ well_formed (mkTensor [2; 2] [0; 1; 1; 0]%Z)
  ∧ Forall (λ z, 0 ≤ z < 2)%Z (data (mkTensor [2; 2] [0; 1; 1; 0]%Z))
  ∧ ¬ ∃ out,
        get_candidate_values (mkTensor [2; 2; 2] [0; 1; 2; 3; 4; 5; 6; 7]%Z)
                             (mkTensor [2; 2] [0; 1; 1; 0]%Z) = Some out
        ∧ shape out = [2; 2; per_example_size
                               (mkTensor [2; 2; 2] [0; 1; 2; 3; 4; 5; 6; 7]%Z)].
Proof.
  split; [reflexivity|]. split; [reflexivity|]. split.
  - cbn. repeat (apply Forall_cons_2; [lia|]). apply Forall_nil_2.
  - intros (out & Hout & Hshape). vm_compute in Hout. injection Hout as <-.
    discriminate Hshape.
Qed.

(** C1, amended: let [x] have shape [lead ++ [k]] with [k > 0], so that
    its pool [batch_flatten x] has [product of lead] rows of [k] elements,
    and let [candidate_ids] have shape [(b, n)] with every entry a row
    number of the pool. Then [get_candidate_values] returns a tensor of
    shape [(b, n, k)] whose entry [[i][j]] is row [candidate_ids[i][j]] of
    the pool. For [x] of shape [(batch_size, k)] the pool is [x] itself
    and the entries range over [[0, batch_size)]. *)
Theorem get_candidate_values_spec {A} (x : Tensor A) (candidate_ids : Tensor Z)
    (lead : list nat) (k b n : nat) :
  well_formed x → shape x = lead ++ [k] → 0 < k →
  well_formed candidate_ids → shape candidate_ids = [b; n] →
  Forall (λ z, 0 ≤ z < Z.of_nat (num_elements lead))%Z (data candidate_ids) →
  ∃ pool out,
    batch_flatten x = Some pool
    ∧ shape pool = [num_elements lead; k]
    ∧ get_candidate_values x candidate_ids = Some out
    ∧ shape out = [b; n; k]
    ∧ well_formed out
    ∧ ∀ i j, i < b → j < n →
        ∃ z row, at_index candidate_ids [i; j] = Some z
                 ∧ index1 pool (Z.to_nat z) = Some row
                 ∧ index out [i; j] = Some row.
Proof.
  intros Hx Hs Hk Hc Hcs Hids.
  assert (Hd : length (data x) = num_elements lead * k).
  { rewrite Hx, Hs, num_elements_app. cbn. lia. }
  assert (Hcd : length (data candidate_ids) = b * n).
  { rewrite Hc, Hcs. cbn. lia. }
  rewrite (batch_flatten_unfold x lead k) by done.
  rewrite (get_candidate_values_unfold x candidate_ids lead k b n) by done.
  set (blocks := (λ row, mjoin (select_row k (data x) <$> row))
                   <$> rows n b (data candidate_ids)).
  assert (Hblocks : Forall (λ r, length r = n * k) blocks).
  { apply Forall_fmap.
    pose proof (Forall_length_rows n b (data candidate_ids) ltac:(lia)) as Hlen.
    pose proof (Forall_reshape _ _ (replicate b n) Hids) as Hin.
    fold (rows n b (data candidate_ids)) in Hin.
    revert Hlen Hin. generalize (rows n b (data candidate_ids)).
    intros rs Hlen Hin. induction Hlen as [|row rs Hrow _ IH]; [constructor|].
    inversion Hin; subst. constructor; [|by apply IH]. cbn.
    rewrite (length_mjoin_same k), length_fmap; [done|].
    by apply (length_select_rows _ (num_elements lead)). }
  eexists _, _. split; [reflexivity|]. split; [reflexivity|].
  split; [reflexivity|]. split; [reflexivity|]. split.
  { unfold well_formed. cbn [shape data num_elements foldr].
    rewrite (length_mjoin_same (n * k)) by done.
    unfold blocks. rewrite length_fmap, length_rows. lia. }
  intros i j Hi Hj. destruct candidate_ids as [cs ids]. cbn [shape data] in *.
  subst cs. rewrite at_index_matrix by done.
  set (row := take n (drop (i * n) ids)).
  assert (Hrow : length row = n) by (by apply (length_block _ b)).
  assert (Hrange : Forall (λ z, 0 ≤ z < Z.of_nat (num_elements lead))%Z row).
  { by apply Forall_take, Forall_drop. }
  destruct (lookup_lt_is_Some_2 row j) as [z Hz]; [lia|].
  assert (Hzr : (0 ≤ z < Z.of_nat (num_elements lead))%Z).
  { rewrite Forall_lookup in Hrange. by apply (Hrange j). }
  exists z. eexists. split; [exact Hz|]. split.
  - rewrite index1_cons by lia. cbn [num_elements foldr]. rewrite Nat.mul_1_r.
    reflexivity.
  - cbn [index]. rewrite index1_cons by done. cbn [mbind option_bind].
    cbn [num_elements foldr]. rewrite Nat.mul_1_r.
    rewrite <-(app_nil_r (mjoin blocks)).
    rewrite (take_drop_mjoin (n * k) blocks i
               (mjoin (select_row k (data x) <$> row))); [|done|].
    + rewrite index1_cons by done. cbn [num_elements foldr mbind option_bind].
      rewrite Nat.mul_1_r. rewrite <-(app_nil_r (mjoin _)).
      rewrite (take_drop_mjoin k _ j (select_row k (data x) z)); [done| |].
      * by apply (length_select_rows _ (num_elements lead)).
      * by rewrite list_lookup_fmap, Hz.
    + unfold blocks. by rewrite list_lookup_fmap, rows_lookup.
Qed.

(** The spec's worked example. *)
Lemma get_candidate_values_spec_witness :
  ∃ pool out,
    batch_flatten (mkTensor [3; 3] [0; 1; 2; 3; 4; 5; 6; 7; 8]%Z) = Some pool
    ∧ shape pool = [3; 3]
    ∧ get_candidate_values (mkTensor [3; 3] [0; 1; 2; 3; 4; 5; 6; 7; 8]%Z)
                           (mkTensor [3; 2] [0; 1; 0; 0; 2; 0]%Z) = Some out
    ∧ shape out = [3; 2; 3]
    ∧ well_formed out
    ∧ ∀ i j, i < 3 → j < 2 →
        ∃ z row, at_index (mkTensor [3; 2] [0; 1; 0; 0; 2; 0]%Z) [i; j] = Some z
                 ∧ index1 pool (Z.to_nat z) = Some row
                 ∧ index out [i; j] = Some row.
Proof.
  apply (get_candidate_values_spec
           (mkTensor [3; 3] [0; 1; 2; 3; 4; 5; 6; 7; 8]%Z)
           (mkTensor [3; 2] [0; 1; 0; 0; 2; 0]%Z) [3] 3 3 2).
  - reflexivity.
  - reflexivity.
  - lia.
  - reflexivity.
  - reflexivity.
  - cbn. repeat (apply Forall_cons_2; [lia|]). apply Forall_nil_2.
Defined.

Example get_candidate_values_example :
  get_candidate_values (mkTensor [3; 3] [0; 1; 2; 3; 4; 5; 6; 7; 8]%Z)
                       (mkTensor [3; 2] [0; 1; 0; 0; 2; 0]%Z)
  = Some (mkTensor [3; 2; 3]
            [0; 1; 2; 3; 4; 5; 0; 1; 2; 0; 1; 2; 6; 7; 8; 0; 1; 2]%Z).
Proof. reflexivity. Qed.

(** * Further properties *)

(** ** batch_flatten: what every result looks like *)

Lemma batch_flatten_Some {A} (x y : Tensor A) :
  batch_flatten x = Some y →
  ∃ m d, list.last (shape x) = Some d
         ∧ y = mkTensor [m; d] (data x)
         ∧ m * d = num_elements (shape x)
         ∧ (d = 0 → 0 < m).
Proof.
  unfold batch_flatten, tf.reshape.
  destruct (list.last (shape x)) as [d|]; [|done]. cbn [mbind option_bind].
  rewrite reshape_shape_last.
  destruct (decide (d = 0)) as [->|Hd].
  - case_decide as Hn; [|done]. cbn [mbind option_bind]. intros [= <-].
    eexists _, 0. split; [done|]. split; [done|]. split; [lia|].
    intros _. apply num_elements_nonzero_sizes.
  - case_decide as Hn; [|done]. cbn [mbind option_bind]. intros [= <-].
    eexists _, d. split; [done|]. split; [done|]. split; [lia|done].
Qed.

(** X1: whenever [batch_flatten] returns, the result has two axes, the
    second of which is the last axis of [x]; it holds the elements of [x]
    in the same order and in the same number. *)
Theorem batch_flatten_keeps_buffer {A} (x y : Tensor A) :
  batch_flatten x = Some y →
  data y = data x
  ∧ ∃ m d, shape y = [m; d]
           ∧ list.last (shape x) = Some d
           ∧ num_elements (shape y) = num_elements (shape x).
Proof.
  intros (m & d & Hlast & -> & Hn & _)%batch_flatten_Some. split; [done|].
  exists m, d. split; [reflexivity|]. split; [done|].
  cbn [shape num_elements foldr]. lia.
Qed.

Lemma batch_flatten_keeps_buffer_witness :
  data (mkTensor [6; 2] (seq 0 12)) = data (mkTensor [2; 3; 2] (seq 0 12))
  ∧ ∃ m d, shape (mkTensor [6; 2] (seq 0 12)) = [m; d]
           ∧ list.last (shape (mkTensor [2; 3; 2] (seq 0 12))) = Some d
           ∧ num_elements (shape (mkTensor [6; 2] (seq 0 12)))
             = num_elements (shape (mkTensor [2; 3; 2] (seq 0 12))).
Proof.
  apply (batch_flatten_keeps_buffer (mkTensor [2; 3; 2] (seq 0 12))
                                    (mkTensor [6; 2] (seq 0 12))).
  reflexivity.
Defined.

(** X2: [batch_flatten] is idempotent: a result of [batch_flatten] is
    returned unchanged when flattened again. *)
Theorem batch_flatten_idempotent {A} (x y : Tensor A) :
  batch_flatten x = Some y → batch_flatten y = Some y.
Proof.
  intros (m & d & Hlast & -> & Hn & Hm)%batch_flatten_Some.
  destruct (decide (d = 0)) as [->|Hd].
  - rewrite (batch_flatten_unfold_empty _ [m]) by done. cbn [data].
    rewrite nonzero_sizes_id by (constructor; [by apply Hm|constructor]).
    cbn [num_elements foldr]. by rewrite Nat.mul_1_r.
  - rewrite (batch_flatten_unfold _ [m] d) by (done || lia). cbn [data].
    cbn [num_elements foldr]. by rewrite Nat.mul_1_r.
Qed.

Lemma batch_flatten_idempotent_witness :
  batch_flatten (mkTensor [6; 2] (seq 0 12)) = Some (mkTensor [6; 2] (seq 0 12)).
Proof.
  apply (batch_flatten_idempotent (mkTensor [2; 3; 2] (seq 0 12))
                                  (mkTensor [6; 2] (seq 0 12))).
  reflexivity.
Defined.

(** X3: a tensor that already has two axes, the second non-empty, is
    returned unchanged by [batch_flatten]. *)
Theorem batch_flatten_matrix {A} (x : Tensor A) (p k : nat) :
  shape x = [p; k] → 0 < k → batch_flatten x = Some x.
Proof.
  intros Hs Hk. rewrite (batch_flatten_unfold x [p] k) by done.
  cbn [num_elements foldr]. rewrite Nat.mul_1_r. destruct x as [s d].
  cbn in Hs. by subst s.
Qed.

Lemma batch_flatten_matrix_witness :
  batch_flatten (mkTensor [2; 3] [1; 2; 3; 4; 5; 6]%Z)
  = Some (mkTensor [2; 3] [1; 2; 3; 4; 5; 6]%Z).
Proof.
  apply (batch_flatten_matrix (mkTensor [2; 3] [1; 2; 3; 4; 5; 6]%Z) 2 3);
    [reflexivity|lia].
Defined.

(** ** pad_right: errors and broadcasting of the target shape *)

(** The part of [pad_right] after the subtraction. *)
Lemma pad_with_difference {A} (x : Tensor A) (diff : list Z) (value : A) :
  (tf.expand_dims (mkTensor [length diff] diff) (-1) ≫= λ right_padding,
     tf.concat_last (tf.zeros_like right_padding) right_padding ≫= λ padding,
       tf.pad x padding value)
  = if decide (length diff = rank x)
    then mapM tf.padding_row ((λ a, [0%Z; a]) <$> diff) ≫= λ p,
           Some (mkTensor (tf.padded_shape (shape x) p)
                          (tf.pad_data value (shape x) p (data x)))
    else None.
Proof.
  rewrite expand_dims_last_vector. cbn [mbind option_bind].
  unfold tf.concat_last, tf.zeros_like. cbn [shape data list.last removelast app].
  cbn [mbind option_bind]. rewrite decide_True by done.
  cbn [mbind option_bind num_elements foldr]. rewrite Nat.mul_1_r.
  rewrite interleave_rows. unfold tf.pad, tf.padding_pairs. cbn [shape data].
  destruct (decide (length diff = rank x)) as [Hlen|Hlen].
  - rewrite decide_True by (by rewrite Hlen). by rewrite <-Hlen, rows_pairs.
  - rewrite decide_False; [done|]. intros [= ?]. done.
Qed.

Lemma padding_rows_negative s target :
  length target = length s → ¬ Forall2 le s target →
  mapM tf.padding_row
       ((λ a, [0%Z; a]) <$> zip_with Z.sub (Z.of_nat <$> target) (Z.of_nat <$> s))
  = None.
Proof.
  revert target. induction s as [|n s IH]; intros [|t target] Hlen Hle; try done.
  injection Hlen as Hlen. apply mapM_None. csimpl.
  destruct (decide (n ≤ t)) as [Hn|Hn].
  - apply Exists_cons_tl. apply mapM_None, IH; [done|].
    intros Hrest. apply Hle. by constructor.
  - apply Exists_cons_hd. unfold tf.padding_row. rewrite decide_False; [done|lia].
Qed.

(** X4: when the target shape has the rank of [x] but is smaller than the
    shape of [x] on some axis, [pad_right] raises: a negative padding is
    refused, nothing is cut off. *)
Theorem pad_right_too_small {A} (x : Tensor A) (target_shape : list nat) (value : A) :
  length target_shape = rank x → ¬ Forall2 le (shape x) target_shape →
  pad_right x target_shape value = None.
Proof.
  intros Hlen Hle. unfold pad_right. cbn [tf.convert_to_tensor tf.shape_of data].
  unfold tf.subtract. rewrite decide_True by (by rewrite !length_fmap).
  cbn [mbind option_bind]. rewrite pad_with_difference.
  rewrite decide_True by (rewrite length_zip_with_l_eq; rewrite !length_fmap; done).
  by rewrite padding_rows_negative.
Qed.

Lemma pad_right_too_small_witness :
  pad_right (mkTensor [2; 2] [1; 2; 3; 4]%Z) [3; 1] 0%Z = None.
Proof.
  apply (pad_right_too_small (mkTensor [2; 2] [1; 2; 3; 4]%Z) [3; 1] 0%Z).
  - reflexivity.
  - intros Hle. inversion Hle as [|? ? ? ? _ Hle']; subst.
    inversion Hle' as [|? ? ? ? Hn _]; subst. lia.
Defined.

Lemma subtract_length (a b diff : list Z) :
  tf.subtract a b = Some diff → length a ≠ 1 → length diff = length a.
Proof.
  unfold tf.subtract. case_decide as Hlen.
  - intros [= <-] _. by rewrite length_zip_with_l_eq.
  - destruct a as [|u [|u' a]]; [| |]; intros Hd Ha; try done.
    + destruct b as [|v [|v' b]]; simplify_eq/=. done.
    + destruct b as [|v [|v' b]]; simplify_eq/=. by rewrite length_fmap.
Qed.

(** X5: when the target shape has neither the rank of [x] nor exactly one
    entry, [pad_right] raises. *)
Theorem pad_right_rank_mismatch {A} (x : Tensor A) (target_shape : list nat) (value : A) :
  length target_shape ≠ rank x → length target_shape ≠ 1 →
  pad_right x target_shape value = None.
Proof.
  intros Hlen H1. unfold pad_right. cbn [tf.convert_to_tensor tf.shape_of data].
  destruct (tf.subtract _ _) as [diff|] eqn:Hdiff; [|done].
  cbn [mbind option_bind]. rewrite pad_with_difference.
  apply subtract_length in Hdiff; rewrite length_fmap in *; [|done].
  rewrite decide_False; [done|congruence].
Qed.

Lemma pad_right_rank_mismatch_witness :
  pad_right (mkTensor [2] [1; 2]%Z) [3; 4] 0%Z = None.
Proof.
  apply (pad_right_rank_mismatch (mkTensor [2] [1; 2]%Z) [3; 4] 0%Z); cbn; lia.
Defined.

Lemma zip_with_sub_replicate (u : Z) (b : list Z) :
  zip_with Z.sub (replicate (length b) u) b = (λ v, u - v)%Z <$> b.
Proof. induction b as [|v b IH]; [done|]. csimpl. by rewrite IH. Qed.

(** X6: a target shape of one entry is broadcast: [pad_right] treats
    [(t,)] as the shape with [t] on every axis of [x]. *)
Theorem pad_right_broadcast_target {A} (x : Tensor A) (t : nat) (value : A) :
  pad_right x [t] value = pad_right x (replicate (rank x) t) value.
Proof.
  unfold pad_right. cbn [tf.convert_to_tensor tf.shape_of data].
  assert (Hsub : tf.subtract (Z.of_nat <$> [t]) (Z.of_nat <$> shape x)
                 = tf.subtract (Z.of_nat <$> replicate (rank x) t)
                               (Z.of_nat <$> shape x)); [|by rewrite Hsub].
  unfold rank. rewrite fmap_replicate.
  rewrite <-(length_fmap Z.of_nat (shape x)).
  generalize (Z.of_nat <$> shape x). intros b.
  unfold tf.subtract at 2. rewrite decide_True by (by rewrite length_replicate).
  rewrite zip_with_sub_replicate. unfold tf.subtract. csimpl.
  case_decide as Hlen; [|done].
  destruct b as [|v [|v' b]]; simplify_eq/=. done.
Qed.

Example pad_right_broadcast_example :
  pad_right (mkTensor [2; 2] [1; 2; 3; 4]%Z) [3] 0%Z
  = Some (mkTensor [3; 3] [1; 2; 0; 3; 4; 0; 0; 0; 0]%Z).
Proof. reflexivity. Qed.

(** ** pad_right twice *)

Section pad_twice.
Context {A : Type} (v : A).
Implicit Types d : list A.

Lemma rows_replicate k n : rows k n (replicate (n * k) v) = replicate n (replicate k v).
Proof.
  induction n as [|n IH]; [done|].
  rewrite rows_S. cbn [Nat.mul replicate].
  rewrite take_replicate_add, drop_replicate_add. by rewrite IH.
Qed.

Lemma mjoin_replicate k n : mjoin (replicate n (replicate k v)) = replicate (n * k) v.
Proof.
  induction n as [|n IH]; [done|]. csimpl. by rewrite IH, replicate_add.
Qed.

Lemma rows_app_blocks k (ls : list (list A)) c d :
  Forall (λ r, length r = k) ls →
  rows k (length ls + c) (mjoin ls ++ d) = ls ++ rows k c d.
Proof.
  induction 1 as [|r ls Hr _ IH]; [done|].
  cbn [length Nat.add]. rewrite rows_S. csimpl. rewrite <-app_assoc.
  rewrite take_app_length', drop_app_length' by done. f_equal. exact IH.
Qed.

Lemma fmap_rows_ext {B} (f g : list A → B) k n d :
  (∀ r, length r = k → f r = g r) → n * k ≤ length d →
  f <$> rows k n d = g <$> rows k n d.
Proof.
  intros Hfg Hd. pose proof (Forall_length_rows k n d Hd) as Hall.
  revert Hall. generalize (rows k n d). intros ls Hall.
  induction Hall as [|r ls Hr _ IH]; [done|]. csimpl. by rewrite Hfg, IH.
Qed.

(** Padding a constant tensor with the same constant gives a constant
    tensor. *)
Lemma pad_data_replicate s target :
  Forall2 le s target →
  tf.pad_data v s (right_pads target s) (replicate (num_elements s) v)
  = replicate (num_elements target) v.
Proof.
  induction 1 as [|n t s target Hn Hle IH]; [done|].
  unfold right_pads. cbn [zip_with tf.pad_data]. fold (right_pads target s).
  rewrite padded_shape_right_pads by done. cbn [Nat.mul replicate app].
  rewrite !num_elements_cons, rows_replicate, fmap_replicate, IH, mjoin_replicate.
  rewrite <-replicate_add. f_equal. nia.
Qed.

Lemma pad_data_compose s t1 t2 d :
  Forall2 le s t1 → Forall2 le t1 t2 → length d = num_elements s →
  tf.pad_data v t1 (right_pads t2 t1) (tf.pad_data v s (right_pads t1 s) d)
  = tf.pad_data v s (right_pads t2 s) d.
Proof.
  intros H1. revert t2 d. induction H1 as [|n m1 s t1 Hn H1 IH]; intros t2 d H2 Hd.
  { by inversion H2. }
  inversion H2 as [|? m2 ? t2' Hm H2']; subst.
  assert (H12 : Forall2 le s t2').
  { clear -H1 H2'. revert t2' H2'. induction H1; intros t2' H2'; inversion H2'; subst;
      constructor; [lia|auto]. }
  rewrite num_elements_cons in Hd.
  unfold right_pads. cbn [zip_with tf.pad_data].
  fold (right_pads t1 s) (right_pads t2' t1) (right_pads t2' s).
  rewrite !padded_shape_right_pads by done. cbn [Nat.mul replicate app].
  set (k := num_elements s). set (k1 := num_elements t1). set (k2 := num_elements t2').
  set (blocks := tf.pad_data v s (right_pads t1 s) <$> rows k n d).
  assert (Hblocks : Forall (λ r, length r = k1) blocks).
  { apply Forall_fmap_rows; [|lia]. intros r Hr.
    rewrite length_pad_data, padded_shape_right_pads; [done|done| |done].
    apply Forall2_length in H1. unfold right_pads. by rewrite length_zip_with_l_eq. }
  assert (Hlen : length blocks = n).
  { unfold blocks. by rewrite length_fmap, length_rows. }
  replace m1 with (length blocks + (m1 - n)) at 1 by lia.
  rewrite rows_app_blocks by done.
  rewrite rows_replicate, fmap_app, fmap_replicate.
  unfold k1. rewrite pad_data_replicate by done. fold k2.
  unfold blocks. rewrite <-list_fmap_compose.
  rewrite (fmap_rows_ext _ (tf.pad_data v s (right_pads t2' s))).
  - csimpl. rewrite join_app, mjoin_replicate, <-app_assoc, <-replicate_add.
    do 2 f_equal. nia.
  - intros r Hr. cbn. by apply IH.
  - lia.
Qed.
End pad_twice.

(** X7: padding in two steps is padding in one: when [x] fits in
    [shape1] and [shape1] fits in [shape2], padding [x] to [shape1] and
    the result to [shape2] with the same value gives what padding [x] to
    [shape2] gives. *)
Theorem pad_right_twice {A} (x : Tensor A) (shape1 shape2 : list nat) (value : A) :
  well_formed x → Forall2 le (shape x) shape1 → Forall2 le shape1 shape2 →
  ∃ y, pad_right x shape1 value = Some y
       ∧ pad_right y shape2 value = pad_right x shape2 value.
Proof.
  intros Hx H1 H2.
  assert (H12 : Forall2 le (shape x) shape2).
  { clear -H1 H2. revert shape2 H2.
    induction H1; intros shape2 H2; inversion H2; subst; constructor; [lia|auto]. }
  rewrite !pad_right_unfold by done. eexists. split; [reflexivity|].
  rewrite pad_right_unfold by done. cbn [shape data].
  by rewrite pad_data_compose.
Qed.

Lemma pad_right_twice_witness :
  ∃ y, pad_right (mkTensor [2; 2] [1; 2; 3; 4]%Z) [2; 3] 0%Z = Some y
       ∧ pad_right y [3; 4] 0%Z
         = pad_right (mkTensor [2; 2] [1; 2; 3; 4]%Z) [3; 4] 0%Z.
Proof.
  apply (pad_right_twice (mkTensor [2; 2] [1; 2; 3; 4]%Z) [2; 3] [3; 4] 0%Z).
  - reflexivity.
  - repeat constructor.
  - repeat constructor.
Defined.

(** ** random_indices: errors, and use of its result as candidates *)

(** X8: [random_indices] raises whenever [batch_size] or [n] is negative,
    in both branches: neither [tf.random.uniform] nor [tf.zeros] accepts
    a negative size. *)
Theorem random_indices_negative_size (g : Generator) (batch_size n n_max : Z) :
  (batch_size < 0 ∨ n < 0)%Z → random_indices g batch_size n n_max = None.
Proof.
  intros Hneg. unfold random_indices, tf.random.uniform, tf.zeros, as_shape.
  cbn [forallb].
  replace ((0 <=? batch_size)%Z && ((0 <=? n)%Z && true)) with false.
  - by case_decide.
  - symmetry. rewrite andb_true_r. apply andb_false_iff.
    destruct Hneg; [left|right]; apply Z.leb_gt; lia.
Qed.

Lemma random_indices_negative_size_witness :
  random_indices (mkGenerator (λ i, Z.of_nat i) 0) (-1) 3 5 = None.
Proof.
  apply (random_indices_negative_size (mkGenerator (λ i, Z.of_nat i) 0) (-1) 3 5).
  left. lia.
Defined.

Lemma random_indices_int (g : Generator) (batch_size n n_max : Z) :
  (0 ≤ batch_size)%Z → (0 ≤ n)%Z → (0 < n_max)%Z →
  random_indices g batch_size n n_max
  = Some (Int32Tensor
            (mkTensor [Z.to_nat batch_size; Z.to_nat n]
               ((λ w, w `mod` n_max)%Z
                  <$> (draw g (Z.to_nat batch_size * Z.to_nat n)).1)),
          (draw g (Z.to_nat batch_size * Z.to_nat n)).2).
Proof.
  intros Hb Hn Hmax. unfold random_indices, tf.random.uniform.
  rewrite decide_True by lia.
  rewrite as_shape_nonneg by (repeat apply Forall_cons_2; [lia..|apply Forall_nil_2]).
  cbn [mbind option_bind fmap list_fmap num_elements foldr].
  rewrite decide_True by lia. rewrite Nat.mul_1_r.
  by destruct (draw g _).
Qed.

(** X9: indices drawn by [random_indices] with [n_max] the number of rows
    of the pool of [x] are always accepted by [get_candidate_values]:
    the gather raises for no generator. *)
Theorem random_indices_are_candidates {A} (x : Tensor A) (lead : list nat) (k : nat)
    (g : Generator) (batch_size n : Z) :
  well_formed x → shape x = lead ++ [k] → 0 < k → 0 < num_elements lead →
  (0 ≤ batch_size)%Z → (0 ≤ n)%Z →
  ∃ ids g' out,
    random_indices g batch_size n (Z.of_nat (num_elements lead))
    = Some (Int32Tensor ids, g')
    ∧ get_candidate_values x ids = Some out
    ∧ shape out = [Z.to_nat batch_size; Z.to_nat n; k].
Proof.
  intros Hx Hs Hk Hp Hb Hn. rewrite random_indices_int by lia.
  eexists _, _, _. split; [reflexivity|].
  rewrite (get_candidate_values_unfold _ _ lead k (Z.to_nat batch_size) (Z.to_nat n));
    [done|done|done|done| |reflexivity|].
  - unfold well_formed. cbn [shape data num_elements foldr].
    rewrite length_fmap, draw_length. lia.
  - cbn [data]. apply Forall_fmap, Forall_forall. intros w _. cbn.
    apply Z.mod_pos_bound. lia.
Qed.

Lemma random_indices_are_candidates_witness :
  ∃ ids g' out,
    random_indices (mkGenerator (λ i, Z.of_nat (7 * i + 3)) 0) 3 2
                   (Z.of_nat (num_elements [3]))
    = Some (Int32Tensor ids, g')
    ∧ get_candidate_values (mkTensor [3; 3] [0; 1; 2; 3; 4; 5; 6; 7; 8]%Z) ids
      = Some out
    ∧ shape out = [Z.to_nat 3; Z.to_nat 2; 3].
Proof.
  apply (random_indices_are_candidates
           (mkTensor [3; 3] [0; 1; 2; 3; 4; 5; 6; 7; 8]%Z) [3] 3
           (mkGenerator (λ i, Z.of_nat (7 * i + 3)) 0) 3 2);
    [reflexivity|reflexivity|lia|cbn; lia|lia|lia].
Defined.

(** ** get_candidate_values: own rows, and where the elements come from *)

Lemma rows_singletons {A} (l : list A) : rows 1 (length l) l = (λ a, [a]) <$> l.
Proof.
  induction l as [|a l IH]; [done|].
  cbn [length]. rewrite rows_S. csimpl. by rewrite drop_0, IH.
Qed.

Lemma rows_seq {A} k n (d : list A) :
  rows k n d = (λ i, take k (drop (i * k) d)) <$> seq 0 n.
Proof.
  apply list_eq. intros i. rewrite list_lookup_fmap.
  destruct (decide (i < n)) as [Hi|Hi].
  - rewrite rows_lookup by done. by rewrite lookup_seq_lt.
  - rewrite !lookup_ge_None_2; [done| |].
    + rewrite length_seq. lia.
    + rewrite length_rows. lia.
Qed.

(** X10: with every example as its own single candidate, the elements of
    [x] come back in their order: for [x] of shape [(b, k)] and
    [candidate_ids = [[0], [1], ..., [b-1]]] the result is [x] with a
    candidate axis of size 1 inserted. *)
Theorem get_candidate_values_own {A} (x : Tensor A) (b k : nat) :
  well_formed x → shape x = [b; k] → 0 < k →
  get_candidate_values x (own_candidates b) = Some (mkTensor [b; 1; k] (data x)).
Proof.
  intros Hx Hs Hk.
  assert (Hd : length (data x) = b * k).
  { rewrite Hx, Hs. cbn. lia. }
  rewrite (get_candidate_values_unfold x (own_candidates b) [b] k b 1);
    [|done|done|done| |done|].
  - do 2 f_equal. cbn [own_candidates data].
    replace (rows 1 b (Z.of_nat <$> seq 0 b))
      with ((λ a, [a]) <$> (Z.of_nat <$> seq 0 b))
      by (by rewrite <-rows_singletons, length_fmap, length_seq).
    rewrite <-!list_fmap_compose.
    trans (mjoin (rows k b (data x))); [|by apply mjoin_rows]. f_equal.
    rewrite rows_seq. apply list_fmap_ext. intros i j _. cbn.
    unfold select_row. by rewrite app_nil_r, Nat2Z.id.
  - unfold well_formed, own_candidates. cbn. rewrite length_fmap, length_seq. lia.
  - cbn [own_candidates data]. apply Forall_fmap, Forall_seq. intros j Hj. cbn. lia.
Qed.

Lemma get_candidate_values_own_witness :
  get_candidate_values (mkTensor [2; 3] [1; 2; 3; 4; 5; 6]%Z) (own_candidates 2)
  = Some (mkTensor [2; 1; 3] [1; 2; 3; 4; 5; 6]%Z).
Proof.
  apply (get_candidate_values_own (mkTensor [2; 3] [1; 2; 3; 4; 5; 6]%Z) 2 3);
    [reflexivity|reflexivity|lia].
Defined.

(** X11: [get_candidate_values] makes up no value: whatever holds of
    every element of [x] holds of every element of the result. *)
Theorem get_candidate_values_elements {A} (P : A → Prop) (x : Tensor A)
    (candidate_ids : Tensor Z) (lead : list nat) (k b n : nat) :
  well_formed x → shape x = lead ++ [k] → 0 < k →
  well_formed candidate_ids → shape candidate_ids = [b; n] →
  Forall (λ z, 0 ≤ z < Z.of_nat (num_elements lead))%Z (data candidate_ids) →
  Forall P (data x) →
  ∃ out, get_candidate_values x candidate_ids = Some out ∧ Forall P (data out).
Proof.
  intros Hx Hs Hk Hc Hcs Hids HP.
  rewrite (get_candidate_values_unfold x candidate_ids lead k b n) by done.
  eexists. split; [reflexivity|]. cbn [data].
  apply Forall_join, Forall_fmap, Forall_forall. intros row _. cbn.
  apply Forall_join, Forall_fmap, Forall_forall. intros z _. cbn.
  unfold select_row. by apply Forall_take, Forall_drop.
Qed.

Lemma get_candidate_values_elements_witness :
  ∃ out, get_candidate_values (mkTensor [3; 3] [0; 1; 2; 3; 4; 5; 6; 7; 8]%Z)
                              (mkTensor [3; 2] [0; 1; 0; 0; 2; 0]%Z) = Some out
         ∧ Forall (λ a, 0 ≤ a < 9)%Z (data out).
Proof.
  apply (get_candidate_values_elements (λ a, 0 ≤ a < 9)%Z
           (mkTensor [3; 3] [0; 1; 2; 3; 4; 5; 6; 7; 8]%Z)
           (mkTensor [3; 2] [0; 1; 0; 0; 2; 0]%Z) [3] 3 3 2).
  - reflexivity.
  - reflexivity.
  - lia.
  - reflexivity.
  - reflexivity.
  - cbn. repeat (apply Forall_cons_2; [lia|]). apply Forall_nil_2.
  - cbn. repeat (apply Forall_cons_2; [lia|]). apply Forall_nil_2.
Defined.

(** ** reduce_mean_equal: extreme values, broadcasting, errors *)

Lemma sum_cast_fmap {B} (f : B → bool) (l : list B) :
  foldr f32_add f32_zero ((λ b : bool, if b then f32_one else f32_zero) <$> (f <$> l))
  = f32_of_nat (length (filter (λ a, f a = true) l)).
Proof.
  induction l as [|a l IH]; [done|].
  csimpl. rewrite IH, filter_cons. destruct (f a); case_decide; try done; cbn [length].
  - apply f32_add_one.
  - apply f32_add_zero.
Qed.

Lemma filter_all_length {B} (P : B → Prop) `{∀ a, Decision (P a)} (l : list B) :
  length (filter P l) = length l ↔ Forall P l.
Proof.
  induction l as [|a l IH]; [by split; [constructor|]|].
  rewrite filter_cons. pose proof (length_filter P l) as Hle.
  destruct (decide (P a)) as [Ha|Ha]; cbn [length].
  - rewrite list.Forall_cons. split; [intros [= ?]; tauto|intros [_ ?]; f_equal; tauto].
  - split; [lia|]. intros Hall. by inversion Hall.
Qed.

Lemma filter_none_length {B} (P : B → Prop) `{∀ a, Decision (P a)} (l : list B) :
  length (filter P l) = 0 ↔ Forall (λ a, ¬ P a) l.
Proof.
  induction l as [|a l IH]; [by split; [constructor|]|].
  rewrite filter_cons. destruct (decide (P a)) as [Ha|Ha]; cbn [length].
  - split; [done|]. intros Hall. by inversion Hall.
  - rewrite list.Forall_cons. tauto.
Qed.

Lemma Forall_zip_with_Forall2 {B C D} (f : B → C → D) (P : D → Prop) l k :
  length l = length k →
  Forall P (zip_with f l k) ↔ Forall2 (λ a b, P (f a b)) l k.
Proof.
  revert k. induction l as [|a l IH]; intros [|b k] Hlen; try done.
  injection Hlen as Hlen. cbn [zip_with]. rewrite list.Forall_cons, (IH k Hlen). split.
  - intros [? ?]. by constructor.
  - inversion 1; subst. by split.
Qed.

Lemma f32_of_nat_nonzero n : 0 < n → q_is_zero (Qred (inject_Z (Z.of_nat n))) = false.
Proof.
  intros Hn. unfold q_is_zero. destruct (Qeq_bool _ 0) eqn:Hz; [|done].
  apply Qeq_bool_eq in Hz. rewrite Qred_correct in Hz.
  unfold Qeq, inject_Z in Hz. cbn [Qnum Qden] in Hz. lia.
Qed.

Lemma inject_nat_nonzero n : 0 < n → ¬ (inject_Z (Z.of_nat n) == 0)%Q.
Proof. intros Hn Hz. unfold Qeq, inject_Z in Hz. cbn [Qnum Qden] in Hz. lia. Qed.

(** A ratio of two counts is 1.0 only for equal counts. *)
Lemma f32_ratio_one (c n : nat) :
  0 < n → f32_div (f32_of_nat c) (f32_of_nat n) = FNum 1 ↔ c = n.
Proof.
  intros Hn. unfold f32_div, f32_of_nat. rewrite f32_of_nat_nonzero by done.
  change (FNum 1) with (FNum (Qred 1)).
  pose proof (inject_nat_nonzero n Hn) as Hnz.
  split.
  - intros [= Heq]. apply Qred_eq_iff in Heq. rewrite !Qred_correct in Heq.
    apply Nat2Z.inj, inject_Z_injective.
    rewrite <-(Qmult_div_r (inject_Z (Z.of_nat c)) (inject_Z (Z.of_nat n))) by done.
    rewrite Heq. apply Qmult_1_r.
  - intros ->. f_equal. apply Qred_eq_iff. rewrite !Qred_correct.
    by apply Qmult_inv_r.
Qed.

(** A ratio of two counts is 0.0 only for a count of zero. *)
Lemma f32_ratio_zero (c n : nat) :
  0 < n → f32_div (f32_of_nat c) (f32_of_nat n) = FNum 0 ↔ c = 0.
Proof.
  intros Hn. unfold f32_div, f32_of_nat. rewrite f32_of_nat_nonzero by done.
  change (FNum 0) with (FNum (Qred 0)).
  pose proof (inject_nat_nonzero n Hn) as Hnz.
  split.
  - intros [= Heq]. apply Qred_eq_iff in Heq. rewrite !Qred_correct in Heq.
    apply Nat2Z.inj, inject_Z_injective.
    rewrite <-(Qmult_div_r (inject_Z (Z.of_nat c)) (inject_Z (Z.of_nat n))) by done.
    rewrite Heq. apply Qmult_0_r.
  - intros ->. reflexivity.
Qed.

Section extremes.
Context {A : Type} `{DType A}.

Lemma reduce_mean_equal_count (x y : Tensor A) :
  shape x = shape y → well_formed x → well_formed y →
  reduce_mean_equal x y
  = Some (scalar (f32_div
       (f32_of_nat (length (filter (λ b : bool, b = true)
                                   (zip_with dt_equal (data x) (data y)))))
       (f32_of_nat (num_elements (shape x))))).
Proof.
  intros Hs Hx Hy. unfold reduce_mean_equal.
  rewrite equal_same_shape by done. cbn [mbind option_bind].
  unfold tf.reduce_mean, tf.cast, scalar. cbn [data shape].
  rewrite <-(list_fmap_id (zip_with _ _ _)) at 1. by rewrite sum_cast_fmap.
Qed.

Lemma length_comparisons (x y : Tensor A) :
  shape x = shape y → well_formed x → well_formed y →
  length (zip_with dt_equal (data x) (data y)) = num_elements (shape x)
  ∧ length (data x) = length (data y).
Proof.
  intros Hs Hx Hy. assert (Hlen : length (data x) = length (data y)).
  { by rewrite Hx, Hy, Hs. }
  split; [|done]. by rewrite length_zip_with_l_eq.
Qed.
End extremes.

(** X12: on non-empty tensors of one shape with at most 2^24 positions,
    [reduce_mean_equal] returns exactly 1.0 if and only if [x] and [y]
    hold equal elements at every position. The bound is the range in
    which a float32 holds every count of positions exactly, so that the
    rational standing for the result is the float32 itself when it is 1. *)
Theorem reduce_mean_equal_one {A} `{DType A} (x y : Tensor A) :
  shape x = shape y → well_formed x → well_formed y →
  0 < num_elements (shape x) →
  (Z.of_nat (num_elements (shape x)) ≤ 2 ^ 24)%Z →
  reduce_mean_equal x y = Some (scalar (FNum 1))
  ↔ Forall2 (λ a b, dt_equal a b = true) (data x) (data y).
Proof.
  intros Hs Hx Hy Hn _. rewrite reduce_mean_equal_count by done.
  destruct (length_comparisons x y Hs Hx Hy) as [Hzip Hlen].
  rewrite <-(Forall_zip_with_Forall2 dt_equal (λ b, b = true)) by done.
  rewrite <-filter_all_length, Hzip. unfold scalar. split.
  - intros [= Heq]. by apply f32_ratio_one in Heq.
  - intros Heq. do 3 f_equal. by apply f32_ratio_one.
Qed.

Lemma reduce_mean_equal_one_witness :
  reduce_mean_equal (mkTensor [3] [1; 2; 3]%Z) (mkTensor [3] [1; 2; 3]%Z)
  = Some (scalar (FNum 1))
  ↔ Forall2 (λ a b, dt_equal a b = true)
            (data (mkTensor [3] [1; 2; 3]%Z)) (data (mkTensor [3] [1; 2; 3]%Z)).
Proof.
  apply (reduce_mean_equal_one (mkTensor [3] [1; 2; 3]%Z) (mkTensor [3] [1; 2; 3]%Z));
    [reflexivity|reflexivity|reflexivity|cbn; lia|cbn; lia].
Defined.

(** X13: on non-empty tensors of one shape, [reduce_mean_equal] returns
    exactly 0.0 if and only if [x] and [y] differ at every position. *)
Theorem reduce_mean_equal_zero {A} `{DType A} (x y : Tensor A) :
  shape x = shape y → well_formed x → well_formed y →
  0 < num_elements (shape x) →
  reduce_mean_equal x y = Some (scalar (FNum 0))
  ↔ Forall2 (λ a b, dt_equal a b = false) (data x) (data y).
Proof.
  intros Hs Hx Hy Hn. rewrite reduce_mean_equal_count by done.
  destruct (length_comparisons x y Hs Hx Hy) as [Hzip Hlen].
  rewrite <-(Forall_zip_with_Forall2 dt_equal (λ b, b = false)) by done.
  assert (Hnot : Forall (λ b : bool, b = false) (zip_with dt_equal (data x) (data y))
                 ↔ Forall (λ b : bool, ¬ b = true) (zip_with dt_equal (data x) (data y))).
  { apply Forall_iff. intros []; split; done. }
  rewrite Hnot, <-filter_none_length. unfold scalar. split.
  - intros [= Heq]. by apply (f32_ratio_zero _ _ Hn) in Heq.
  - intros Heq. do 3 f_equal. by apply f32_ratio_zero.
Qed.

Lemma reduce_mean_equal_zero_witness :
  reduce_mean_equal (mkTensor [2] [1; 2]%Z) (mkTensor [2] [3; 4]%Z)
  = Some (scalar (FNum 0))
  ↔ Forall2 (λ a b, dt_equal a b = false)
            (data (mkTensor [2] [1; 2]%Z)) (data (mkTensor [2] [3; 4]%Z)).
Proof.
  apply (reduce_mean_equal_zero (mkTensor [2] [1; 2]%Z) (mkTensor [2] [3; 4]%Z));
    [reflexivity|reflexivity|reflexivity|cbn; lia].
Defined.

Lemma num_elements_ones n : num_elements (replicate n 1) = 1.
Proof.
  induction n as [|n IH]; [done|].
  change (num_elements (replicate (S n) 1)) with (1 * num_elements (replicate n 1)).
  lia.
Qed.

(** A single element broadcast to a shape fills it. *)
Lemma broadcast_data_ones {A} (v : A) (t : list nat) :
  tf.broadcast_data (replicate (length t) 1) t [v] = replicate (num_elements t) v.
Proof.
  induction t as [|m t IH]; [done|].
  cbn [length replicate tf.broadcast_data]. rewrite num_elements_ones.
  change (rows 1 1 [v]) with [[v]]. csimpl. rewrite app_nil_r, IH.
  case_decide as Hm.
  - subst m. f_equal. lia.
  - apply mjoin_replicate.
Qed.

Lemma broadcast_shapes_scalar s : tf.broadcast_shapes s [] = Some s.
Proof.
  unfold tf.broadcast_shapes. rewrite reverse_nil.
  replace (tf.broadcast_rev (reverse s) []) with (Some (reverse s))
    by (by destruct (reverse s)).
  cbn. by rewrite reverse_involutive.
Qed.

Lemma zip_with_replicate_r {A B C} (f : A → B → C) (l : list A) (v : B) :
  zip_with f l (replicate (length l) v) = (λ a, f a v) <$> l.
Proof. induction l as [|a l IH]; [done|]. csimpl. by rewrite IH. Qed.

(** X14: against a scalar, [reduce_mean_equal] broadcasts: it returns the
    number of elements of [x] equal to the scalar, divided by the number
    of elements of [x]. *)
Theorem reduce_mean_equal_scalar {A} `{DType A} (x : Tensor A) (v : A) :
  well_formed x →
  reduce_mean_equal x (scalar v)
  = Some (scalar (f32_div
       (f32_of_nat (length (filter (λ a, dt_equal a v = true) (data x))))
       (f32_of_nat (num_elements (shape x))))).
Proof.
  intros Hx. unfold reduce_mean_equal, tf.math.equal. cbn [scalar shape].
  rewrite broadcast_shapes_scalar. cbn [mbind option_bind].
  unfold tf.broadcast_to, rank. cbn [shape data length].
  rewrite Nat.sub_diag, Nat.sub_0_r, app_nil_r. cbn [replicate app].
  change (data (scalar v)) with [v].
  rewrite broadcast_data_diag, broadcast_data_ones by done.
  rewrite <-Hx, zip_with_replicate_r.
  unfold tf.reduce_mean, tf.cast, scalar. cbn [data shape].
  by rewrite sum_cast_fmap, Hx.
Qed.

Lemma reduce_mean_equal_scalar_witness :
  reduce_mean_equal (mkTensor [2; 2] [1; 0; 1; 1]%Z) (scalar 1%Z)
  = Some (scalar (FNum (3 # 4))).
Proof.
  exact (eq_trans
           (reduce_mean_equal_scalar (mkTensor [2; 2] [1; 0; 1; 1]%Z) 1%Z eq_refl)
           eq_refl).
Defined.

Lemma broadcast_rev_incompatible (u w u' w' : list nat) (a b : nat) :
  length u = length w → a ≠ b → a ≠ 1 → b ≠ 1 →
  tf.broadcast_rev (u ++ a :: u') (w ++ b :: w') = None.
Proof.
  intros Hlen Hab Ha Hb. revert w Hlen.
  induction u as [|n u IH]; intros [|m w] Hlen; try done.
  - cbn. destruct (tf.broadcast_rev u' w'); [|done]. cbn.
    by rewrite !decide_False by done.
  - injection Hlen as Hlen. cbn. by rewrite IH.
Qed.

(** X15: shapes that cannot be broadcast make [reduce_mean_equal] raise:
    when, counted from the last axis, some axis has different sizes in [x]
    and [y], neither of which is 1. *)
Theorem reduce_mean_equal_incompatible {A} `{DType A} (x y : Tensor A)
    (px py s t : list nat) (a b : nat) :
  shape x = px ++ a :: s → shape y = py ++ b :: t → length s = length t →
  a ≠ b → a ≠ 1 → b ≠ 1 →
  reduce_mean_equal x y = None.
Proof.
  intros Hx Hy Hlen Hab Ha Hb. unfold reduce_mean_equal, tf.math.equal, tf.broadcast_shapes.
  rewrite Hx, Hy, !reverse_app, !reverse_cons, <-!app_assoc. cbn [app].
  by rewrite broadcast_rev_incompatible by (by rewrite ?length_reverse).
Qed.

Lemma reduce_mean_equal_incompatible_witness :
  reduce_mean_equal (mkTensor [3] [1; 2; 3]%Z) (mkTensor [2] [1; 0]%Z) = None.
Proof.
  apply (reduce_mean_equal_incompatible
           (mkTensor [3] [1; 2; 3]%Z) (mkTensor [2] [1; 0]%Z) [] [] [] [] 3 2);
    (reflexivity || lia).
Defined.
